(** * The VRAM coordination core of the MCP manager

    A shallow embedding of
    [mcp-services/mcp-manager/src/services/vramManager.ts]
    (class [VRAMManager]) and the properties of its ledger.

    Conventions of the embedding.

    - A JavaScript [number] holding an amount of VRAM (GB) or a time
      stamp (milliseconds since the epoch, [Date.getTime()]) is a [Z]:
      on whole numbers below [2^53] the arithmetic the class uses
      ([+], [-], comparison, [Math.max]) is exact and is the arithmetic
      of [Z].
    - [Map<string, ServiceInfo>] keeps its entries in insertion order and
      the class only ever stores a record under its own [name]
      (lines 116, 208 and 299), so the map is the list of its values in
      insertion order, looked up by [service_name].
    - [new Date()] and the answer of [si.graphics()] come from the
      environment and are arguments of the operation that reads them.
    - Calls are taken one at a time, each running to its end before
      the next starts, except where two registrations are followed
      across their [await]s ([registerService_overlapping]).
    - Amounts that are not whole numbers are followed in binary64 in
      the module [Binary64].
    - What an operation does to the outside world (the write of the
      configuration file, the HTTP call to a service, a warning) is
      returned as a list of events, in the order the code performs
      them. *)

From Stdlib Require Import SpecFloat.
From stdpp Require Import base decidable option list strings numbers sorting.

Local Open Scope Z_scope.

(** ** Data model (lines 25-58) *)

Record ModelInfo := {
  model_name : string;
  vramUsageGb : Z;
  lastUsed : Z
}.

Record ServiceInfo := {
  service_name : string;
  url : string;
  models : list ModelInfo;
  usedVramGb : Z
}.

(** The argument [{ name; vramUsageGb }] of [registerService]; the
    configuration file stores models in the same shape. *)
Record ModelEntry := {
  entry_name : string;
  entry_vramUsageGb : Z
}.

(** One element of the array written to the configuration file. *)
Record ServiceConfig := {
  config_name : string;
  config_url : string;
  config_models : list ModelEntry
}.

Record ServiceStatus := {
  status_name : string;
  status_usedVramGb : Z;
  status_models : list string
}.

Record VRAMStatus := {
  st_totalVramGb : Z;
  st_usedVramGb : Z;
  st_availableVramGb : Z;
  st_services : list ServiceStatus
}.

(** The [message] strings are template literals; they are kept as
    constructors carrying the interpolated values. *)
Inductive Message :=
| ServiceNotFound (serviceName : string)
| ModelNotFound (modelName serviceName : string)
| ModelUnloaded (modelName : string)
| NotEnoughVram (required available : Z)
| ServiceRegistered (serviceName : string).

Record UnloadModelResult := {
  unload_success : bool;
  freedVramGb : Z;
  unload_message : Message
}.

Record RegisterServiceResult := {
  register_success : bool;
  register_message : Message
}.

(** The fields of the class. [servicesConfigPath] only names the file;
    the content written to it appears in the events. *)
Record VRAMManager := {
  services : list ServiceInfo;
  maxVramUsageGb : Z;
  vramReserveGb : Z;
  enableAutoUnload : bool;
  unloadTimeoutMinutes : Z;
  totalVramGb : Z
}.

Definition with_services (svcs : list ServiceInfo) (m : VRAMManager) : VRAMManager :=
  {| services := svcs;
     maxVramUsageGb := maxVramUsageGb m;
     vramReserveGb := vramReserveGb m;
     enableAutoUnload := enableAutoUnload m;
     unloadTimeoutMinutes := unloadTimeoutMinutes m;
     totalVramGb := totalVramGb m |}.

Definition with_totalVramGb (t : Z) (m : VRAMManager) : VRAMManager :=
  {| services := services m;
     maxVramUsageGb := maxVramUsageGb m;
     vramReserveGb := vramReserveGb m;
     enableAutoUnload := enableAutoUnload m;
     unloadTimeoutMinutes := unloadTimeoutMinutes m;
     totalVramGb := t |}.

(** ** The environment *)

(** How the [fetch] of [unloadModelInternal] ends: a response with
    [ok], a response without it, or a rejected promise. *)
Inductive FetchOutcome := FetchOk | FetchNotOk | FetchError.

(** The answer of [si.graphics()]: [None] when the call throws or gives
    no [controllers]; otherwise one entry per controller, its memory in
    GB (the source divides the reported MB figure by 1024), [None] for a
    [null] figure. *)
Definition GpuData := option (list (option Z)).

Inductive Event :=
| WriteConfig (config : list ServiceConfig)
| FetchUnload (serviceUrl modelName : string)
| WarnUnload (serviceName : string).

(** ** [Map<string, ServiceInfo>] *)

Fixpoint map_get (key : string) (m : list ServiceInfo) : option ServiceInfo :=
  match m with
  | [] => None
  | s :: m' => if decide (service_name s = key) then Some s else map_get key m'
  end.

(** [Map.prototype.set]: an existing key keeps its place, a new key goes
    to the end. *)
Fixpoint map_set (key : string) (value : ServiceInfo) (m : list ServiceInfo)
  : list ServiceInfo :=
  match m with
  | [] => [value]
  | s :: m' =>
      if decide (service_name s = key) then value :: m'
      else s :: map_set key value m'
  end.

(** ** Sums ([Array.prototype.reduce] with [+] from [0]) *)

Definition sum_entries (ms : list ModelEntry) : Z :=
  foldl (fun total model => total + entry_vramUsageGb model) 0 ms.

Definition sum_models (ms : list ModelInfo) : Z :=
  foldl (fun total model => total + vramUsageGb model) 0 ms.

Definition sum_used (svcs : list ServiceInfo) : Z :=
  foldl (fun total service => total + usedVramGb service) 0 svcs.

(** ** [updateTotalVram] (lines 89-107) *)

Definition updateTotalVram (gpuData : GpuData) (m : VRAMManager) : VRAMManager :=
  match gpuData with
  | Some (c :: cs) =>
      with_totalVramGb
        (foldl (fun total gpu => total + default 0 gpu) 0 (c :: cs)) m
  | Some [] => with_totalVramGb 64 m
  | None => with_totalVramGb 64 m
  end.

(** ** [loadServicesFromConfig] (lines 109-133)

    [file] is the parsed content of the configuration file, [None] when
    the file does not exist. *)

Definition load_service (now : Z) (service : ServiceConfig) : ServiceInfo :=
  {| service_name := config_name service;
     url := config_url service;
     models :=
       map (fun model =>
              {| model_name := entry_name model;
                 vramUsageGb := entry_vramUsageGb model;
                 lastUsed := now |})
           (config_models service);
     usedVramGb := sum_entries (config_models service) |}.

Definition loadServicesFromConfig (now : Z) (file : option (list ServiceConfig))
    (m : VRAMManager) : VRAMManager :=
  match file with
  | Some servicesConfig =>
      with_services
        (foldl (fun svcs service =>
                  map_set (config_name service) (load_service now service) svcs)
               (services m) servicesConfig)
        m
  | None => m
  end.

(** ** [saveServicesToConfig] (lines 135-156) *)

Definition save_service (service : ServiceInfo) : ServiceConfig :=
  {| config_name := service_name service;
     config_url := url service;
     config_models :=
       map (fun model =>
              {| entry_name := model_name model;
                 entry_vramUsageGb := vramUsageGb model |})
           (models service) |}.

Definition servicesConfig (m : VRAMManager) : list ServiceConfig :=
  map save_service (services m).

Definition saveServicesToConfig (m : VRAMManager) : list Event :=
  [WriteConfig (servicesConfig m)].

(** ** [unloadModelInternal] (lines 179-235)

    An [async] function runs up to its first [await] when it is called.
    [unloadModelInternal_start] is that part (lines 180-221): the two
    not-found returns, or the change of the registry, the write of the
    configuration file and the start of the [fetch].
    [unloadModelInternal_finish] is what follows once the [fetch] has
    settled (lines 223-234). *)

Inductive UnloadPending :=
| Returned (result : UnloadModelResult)
| AwaitingFetch (freed : Z) (modelName serviceName : string).

Definition findIndex (modelName : string) (ms : list ModelInfo)
  : option (nat * ModelInfo) :=
  list_find (fun model => model_name model = modelName) ms.

(** Lines 204-205: [service.models.splice(modelIndex, 1)] and
    [service.usedVramGb -= freedVramGb]. *)
Definition splice_model (modelIndex : nat) (freed : Z) (service : ServiceInfo)
  : ServiceInfo :=
  {| service_name := service_name service;
     url := url service;
     models := delete modelIndex (models service);
     usedVramGb := usedVramGb service - freed |}.

Definition unloadModelInternal_start (modelName serviceName : string)
    (m : VRAMManager) : VRAMManager * list Event * UnloadPending :=
  match map_get serviceName (services m) with
  | None =>
      (m, [], Returned {| unload_success := false; freedVramGb := 0;
                          unload_message := ServiceNotFound serviceName |})
  | Some service =>
      match findIndex modelName (models service) with
      | None =>
          (m, [], Returned {| unload_success := false; freedVramGb := 0;
                              unload_message := ModelNotFound modelName serviceName |})
      | Some (modelIndex, model) =>
          let freed := vramUsageGb model in
          let service' := splice_model modelIndex freed service in
          let m' := with_services (map_set serviceName service' (services m)) m in
          (m',
           saveServicesToConfig m' ++ [FetchUnload (url service) modelName],
           AwaitingFetch freed modelName serviceName)
      end
  end.

Definition unloadModelInternal_finish (pending : UnloadPending)
    (outcome : FetchOutcome) : list Event * UnloadModelResult :=
  match pending with
  | Returned result => ([], result)
  | AwaitingFetch freed modelName serviceName =>
      (match outcome with
       | FetchOk => []
       | FetchNotOk => [WarnUnload serviceName]
       | FetchError => [WarnUnload serviceName]
       end,
       {| unload_success := true; freedVramGb := freed;
          unload_message := ModelUnloaded modelName |})
  end.

Definition unloadModelInternal (outcome : FetchOutcome)
    (modelName serviceName : string) (m : VRAMManager)
  : VRAMManager * list Event * UnloadModelResult :=
  let '(m', events, pending) := unloadModelInternal_start modelName serviceName m in
  let '(events', result) := unloadModelInternal_finish pending outcome in
  (m', events ++ events', result).

(** ** [getVRAMStatus] (lines 237-262) *)

Definition getVRAMStatus (gpuData : GpuData) (m : VRAMManager)
  : VRAMManager * VRAMStatus :=
  let m' := updateTotalVram gpuData m in
  let used := sum_used (services m') in
  let available := Z.max 0 (totalVramGb m' - used - vramReserveGb m') in
  (m',
   {| st_totalVramGb := totalVramGb m';
      st_usedVramGb := used;
      st_availableVramGb := available;
      st_services :=
        map (fun service =>
               {| status_name := service_name service;
                  status_usedVramGb := usedVramGb service;
                  status_models := map model_name (models service) |})
            (services m') |}).

(** ** [unloadModel] (lines 264-266) *)

Definition unloadModel (outcome : FetchOutcome) (modelName serviceName : string)
    (m : VRAMManager) : VRAMManager * list Event * UnloadModelResult :=
  unloadModelInternal outcome modelName serviceName m.

(** ** [registerService] (lines 268-308) *)

Definition new_service (now : Z) (serviceName serviceUrl : string)
    (ms : list ModelEntry) : ServiceInfo :=
  {| service_name := serviceName;
     url := serviceUrl;
     models :=
       map (fun model =>
              {| model_name := entry_name model;
                 vramUsageGb := entry_vramUsageGb model;
                 lastUsed := now |})
           ms;
     usedVramGb := sum_entries ms |}.

Definition registerService (gpuData : GpuData) (now : Z)
    (serviceName serviceUrl : string) (ms : list ModelEntry) (m : VRAMManager)
  : VRAMManager * list Event * RegisterServiceResult :=
  let serviceVramUsage := sum_entries ms in
  let '(m1, status) := getVRAMStatus gpuData m in
  if decide (serviceVramUsage > st_availableVramGb status) then
    (m1, [],
     {| register_success := false;
        register_message := NotEnoughVram serviceVramUsage (st_availableVramGb status) |})
  else
    let serviceInfo := new_service now serviceName serviceUrl ms in
    let m2 := with_services (map_set serviceName serviceInfo (services m1)) m1 in
    (m2, saveServicesToConfig m2,
     {| register_success := true;
        register_message := ServiceRegistered serviceName |}).

(** ** [updateModelUsage] (lines 310-326)

    [find] gives the first model of that name; its [lastUsed] is
    assigned in place. *)

Definition touch_model (now : Z) (model : ModelInfo) : ModelInfo :=
  {| model_name := model_name model;
     vramUsageGb := vramUsageGb model;
     lastUsed := now |}.

Definition updateModelUsage (now : Z) (modelName serviceName : string)
    (m : VRAMManager) : VRAMManager * bool :=
  match map_get serviceName (services m) with
  | None => (m, false)
  | Some service =>
      match findIndex modelName (models service) with
      | None => (m, false)
      | Some (i, model) =>
          let service' :=
            {| service_name := service_name service;
               url := url service;
               models := <[i := touch_model now model]> (models service);
               usedVramGb := usedVramGb service |} in
          (with_services (map_set serviceName service' (services m)) m, true)
      end
  end.

(** ** [getServiceList] (lines 328-333) *)

Definition getServiceList (m : VRAMManager) : list (string * string) :=
  map (fun service => (service_name service, url service)) (services m).

(** ** [autoUnloadInactiveModels] (lines 158-177)

    [(now - lastUsed) / (1000 * 60) > unloadTimeoutMinutes], with the
    division cleared. *)

Definition inactive (now : Z) (m : VRAMManager) (model : ModelInfo) : bool :=
  bool_decide (now - lastUsed model > unloadTimeoutMinutes m * (1000 * 60)).

(** The inner [for ... of service.models]. An array iterator keeps an
    index [i] and reads the array as it is at each step, and the call of
    [unloadModelInternal] it makes runs, before its first [await],
    the [splice] on that same array. The promise is not awaited, so the
    sweep sees the start of each call only. [fuel] bounds the number of
    steps; the iterator ends by itself when [i] reaches the length. *)

Fixpoint sweep_models (fuel : nat) (now : Z) (serviceName : string) (i : nat)
    (m : VRAMManager) : VRAMManager * list Event * nat :=
  match fuel with
  | O => (m, [], 0%nat)
  | S fuel' =>
      match map_get serviceName (services m) ≫= (fun service => models service !! i) with
      | None => (m, [], 0%nat)
      | Some model =>
          if inactive now m model then
            let '(m1, events, _) :=
              unloadModelInternal_start (model_name model) serviceName m in
            let '(m2, events', unloadedModels) :=
              sweep_models fuel' now serviceName (S i) m1 in
            (m2, events ++ events', S unloadedModels)
          else sweep_models fuel' now serviceName (S i) m
      end
  end.

Definition models_of (serviceName : string) (m : VRAMManager) : list ModelInfo :=
  from_option models [] (map_get serviceName (services m)).

(** One more step than the array has elements is enough fuel (see
    [sweep_models_fuel]). *)
Definition sweep_service (now : Z) (serviceName : string) (m : VRAMManager)
  : VRAMManager * list Event * nat :=
  sweep_models (S (length (models_of serviceName m))) now serviceName 0 m.

(** The outer [for ... of this.services.values()]: no call made in the
    loop adds or removes a key, so the services visited are those of the
    map at the start, in its order. *)
Definition sweep_step (now : Z) (acc : VRAMManager * list Event * nat)
    (serviceName : string) : VRAMManager * list Event * nat :=
  let '(m1, events, unloadedModels) := acc in
  let '(m2, events', n) := sweep_service now serviceName m1 in
  (m2, events ++ events', (unloadedModels + n)%nat).

Definition autoUnloadInactiveModels (now : Z) (m : VRAMManager)
  : VRAMManager * list Event * nat :=
  foldl (sweep_step now) (m, [], 0%nat) (map service_name (services m)).

(** ** The constructor (lines 69-87)

    The four numbers come from the environment variables;
    [totalVramGb] is [0] until the first probe has answered. *)

Definition construct (maxVram reserve : Z) (autoUnload : bool) (timeout : Z)
    (now : Z) (file : option (list ServiceConfig)) : VRAMManager :=
  loadServicesFromConfig now file
    {| services := [];
       maxVramUsageGb := maxVram;
       vramReserveGb := reserve;
       enableAutoUnload := autoUnload;
       unloadTimeoutMinutes := timeout;
       totalVramGb := 0 |}.

(** ** Histories of calls *)

Inductive Call :=
| RegisterService (gpuData : GpuData) (now : Z) (serviceName serviceUrl : string)
    (ms : list ModelEntry)
| UnloadModel (outcome : FetchOutcome) (modelName serviceName : string)
| UpdateModelUsage (now : Z) (modelName serviceName : string)
| AutoUnloadInactiveModels (now : Z)
| GetVRAMStatus (gpuData : GpuData)
| LoadServicesFromConfig (now : Z) (file : option (list ServiceConfig)).

Definition run (m : VRAMManager) (c : Call) : VRAMManager :=
  match c with
  | RegisterService gpuData now serviceName serviceUrl ms =>
      (registerService gpuData now serviceName serviceUrl ms m).1.1
  | UnloadModel outcome modelName serviceName =>
      (unloadModel outcome modelName serviceName m).1.1
  | UpdateModelUsage now modelName serviceName =>
      (updateModelUsage now modelName serviceName m).1
  | AutoUnloadInactiveModels now => (autoUnloadInactiveModels now m).1.1
  | GetVRAMStatus gpuData => (getVRAMStatus gpuData m).1
  | LoadServicesFromConfig now file => loadServicesFromConfig now file m
  end.

Definition run_calls (m : VRAMManager) (cs : list Call) : VRAMManager :=
  foldl run m cs.

(** What a probe makes of [totalVramGb]. *)
Definition probed (gpuData : GpuData) : Z :=
  match gpuData with
  | Some (c :: cs) => foldl (fun total gpu => total + default 0 gpu) 0 (c :: cs)
  | _ => 64
  end.

(** A call of the public interface on a machine whose probe answers
    [total] GB, with amounts that are not negative. *)
Definition public_call (total : Z) (c : Call) : Prop :=
  match c with
  | RegisterService gpuData _ _ _ ms =>
      probed gpuData = total ∧ Forall (fun model => 0 ≤ entry_vramUsageGb model) ms
  | GetVRAMStatus gpuData => probed gpuData = total
  | LoadServicesFromConfig _ _ => False
  | _ => True
  end.

(** ** The ledger *)

(** The amount committed by all the leases the registry holds. *)
Definition committed (m : VRAMManager) : Z :=
  foldl (fun total service => total + sum_models (models service)) 0 (services m).

(** The cached [usedVramGb] of every service is the sum over its models. *)
Definition usage_consistent (m : VRAMManager) : Prop :=
  Forall (fun service => usedVramGb service = sum_models (models service))
         (services m).

Definition amounts_nonneg (m : VRAMManager) : Prop :=
  Forall (fun service => Forall (fun model => 0 ≤ vramUsageGb model) (models service))
         (services m).

(** The ledger is in order on a machine of [total] GB: the cached sums
    are right, no amount is negative and what is in use fits under
    [total] less the reserve. *)
Definition ledger_ok (total : Z) (m : VRAMManager) : Prop :=
  usage_consistent m ∧ amounts_nonneg m
  ∧ sum_used (services m) ≤ total - vramReserveGb m.

(** A property of managers that every start of [unloadModelInternal]
    keeps. *)
Definition kept_by_unload (P : VRAMManager → Prop) : Prop :=
  ∀ modelName serviceName m,
    P m → P (unloadModelInternal_start modelName serviceName m).1.1.

(** [m'] has the timeout of [m] and, for every service of [m] whose
    models have distinct names, still has distinct names and still
    holds every model of [m] that is not idle at [now]. *)
Definition spares (now : Z) (m m' : VRAMManager) : Prop :=
  unloadTimeoutMinutes m' = unloadTimeoutMinutes m
  ∧ ∀ serviceName,
      NoDup (map model_name (models_of serviceName m)) →
      NoDup (map model_name (models_of serviceName m'))
      ∧ ∀ model, model ∈ models_of serviceName m → inactive now m model = false →
                 model ∈ models_of serviceName m'.

(** What the configuration file keeps of a registry: for every service
    its name, its url and the names and amounts of its models. *)
Definition lease_view (m : VRAMManager)
  : list (string * string * list (string * Z)) :=
  map (fun service =>
         (service_name service, url service,
          map (fun model => (model_name model, vramUsageGb model)) (models service)))
      (services m).

(** ** A running example

    The scenario of section 8 of the specification: a machine of 64 GB
    (the fallback of the probe) with a reserve of 4 GB, [svc-a] holding
    20 GB and [svc-b] holding 30 GB. *)

Definition entry (name : string) (amount : Z) : ModelEntry :=
  {| entry_name := name; entry_vramUsageGb := amount |}.

Definition fresh_manager : VRAMManager := construct 60 4 true 30 0 None.

Definition two_services : VRAMManager :=
  run_calls fresh_manager
    [RegisterService None 0 "svc-a" "http://svc-a" [entry "model-a" 20];
     RegisterService None 0 "svc-b" "http://svc-b" [entry "model-b" 30]].

(** One service with two models, both registered at time [0]. *)
Definition two_models : VRAMManager :=
  run_calls fresh_manager
    [RegisterService None 0 "svc" "http://svc" [entry "m1" 10; entry "m2" 10]].

(** ** What a history writes and removes *)

(** The events of a call, beside the state it leaves. Of a sweep these
    are the events of the starts of its calls of [unloadModelInternal]. *)
Definition run_events (m : VRAMManager) (c : Call) : VRAMManager * list Event :=
  match c with
  | RegisterService gpuData now serviceName serviceUrl ms =>
      (registerService gpuData now serviceName serviceUrl ms m).1
  | UnloadModel outcome modelName serviceName =>
      (unloadModel outcome modelName serviceName m).1
  | UpdateModelUsage now modelName serviceName =>
      ((updateModelUsage now modelName serviceName m).1, [])
  | AutoUnloadInactiveModels now => (autoUnloadInactiveModels now m).1
  | GetVRAMStatus gpuData => ((getVRAMStatus gpuData m).1, [])
  | LoadServicesFromConfig now file => (loadServicesFromConfig now file m, [])
  end.

(** The configuration last handed to [writeFileSync], if any. *)
Definition last_write (events : list Event) : option (list ServiceConfig) :=
  foldl (fun written event =>
           match event with
           | WriteConfig config => Some config
           | _ => written
           end)
        None events.

(** A history, with the configuration last written along it. *)
Definition run_writing (acc : VRAMManager * option (list ServiceConfig))
    (c : Call) : VRAMManager * option (list ServiceConfig) :=
  let '(m', events) := run_events acc.1 c in
  (m', match last_write events with
       | Some config => Some config
       | None => acc.2
       end).

Definition is_load (c : Call) : Prop :=
  match c with
  | LoadServicesFromConfig _ _ => True
  | _ => False
  end.

(** The number of models the registry holds. *)
Definition total_models (m : VRAMManager) : Z :=
  foldl (fun total service => total + Z.of_nat (length (models service))) 0
        (services m).

(** The timer of the constructor (line 82) runs the sweep again and
    again; [sweeps times m] runs it once at each of [times]. *)
Definition sweeps (times : list Z) (m : VRAMManager) : VRAMManager :=
  foldl (fun m1 now => (autoUnloadInactiveModels now m1).1.1) m times.

(** The manager with another [MAX_VRAM_USAGE_GB] (line 71). *)
Definition with_maxVramUsageGb (x : Z) (m : VRAMManager) : VRAMManager :=
  {| services := services m;
     maxVramUsageGb := x;
     vramReserveGb := vramReserveGb m;
     enableAutoUnload := enableAutoUnload m;
     unloadTimeoutMinutes := unloadTimeoutMinutes m;
     totalVramGb := totalVramGb m |}.

(** ** The server around the manager ([index.ts] of the MCP manager)

    The handlers that call [unloadModel]. A field of the request body
    is [None] when it is missing and a string otherwise. *)

(** The answer of the [unload_model] tool (lines 35-57): the text and
    the [freed_vram_gb] of its metadata. The text is the template
    [Model ${model_name} unloaded successfully], the one of line 233 of
    the manager. *)
Record UnloadToolResponse := {
  tool_text : Message;
  tool_freed_vram_gb : Z
}.

Definition tool_unload_model (outcome : FetchOutcome)
    (model_name service_name : string) (m : VRAMManager)
  : VRAMManager * list Event * UnloadToolResponse :=
  let '(m', events, result) := unloadModel outcome model_name service_name m in
  (m', events,
   {| tool_text := ModelUnloaded model_name;
      tool_freed_vram_gb := freedVramGb result |}).

(** [!field] for a field that is missing or a string. *)
Definition falsy (field : option string) : bool :=
  match field with
  | None => true
  | Some s => bool_decide (s = "")
  end.

Inductive UnloadRouteBody :=
| RouteError (error : string)
| RouteResult (result : UnloadModelResult).

(** [POST /vram/unload] (lines 130-141): the status code and the JSON
    body. *)
Definition post_vram_unload (outcome : FetchOutcome)
    (model_name service_name : option string) (m : VRAMManager)
  : VRAMManager * list Event * (Z * UnloadRouteBody) :=
  if falsy model_name || falsy service_name then
    (m, [], (400, RouteError "Missing model_name or service_name"))
  else
    let '(m', events, result) :=
      unloadModel outcome (default "" model_name) (default "" service_name) m in
    (m', events, (200, RouteResult result)).

(** ** [registerService] across its [await]s

    [registerService] is [async]. Called, it computes the requested
    total (l.274) and enters [getVRAMStatus], which enters
    [updateTotalVram], which suspends at [await si.graphics()] (l.91);
    nothing of the ledger has been read yet. It then goes on in three
    turns of the event loop, and between two of them the turns of other
    calls can run:

    - [updateTotalVram] resumes and stores the total (l.92-106): this
      is [updateTotalVram] above;
    - [getVRAMStatus] resumes and reads the ledger (l.241-261):
      [getVRAMStatus_resume];
    - [registerService] resumes with that status, decides and commits
      (l.279-307): [registerService_resume], on the manager as it is by
      then. *)

Definition getVRAMStatus_resume (m : VRAMManager) : VRAMStatus :=
  let used := sum_used (services m) in
  let available := Z.max 0 (totalVramGb m - used - vramReserveGb m) in
  {| st_totalVramGb := totalVramGb m;
     st_usedVramGb := used;
     st_availableVramGb := available;
     st_services :=
       map (fun service =>
              {| status_name := service_name service;
                 status_usedVramGb := usedVramGb service;
                 status_models := map model_name (models service) |})
           (services m) |}.

Definition registerService_resume (now : Z) (serviceName serviceUrl : string)
    (ms : list ModelEntry) (status : VRAMStatus) (m : VRAMManager)
  : VRAMManager * list Event * RegisterServiceResult :=
  let serviceVramUsage := sum_entries ms in
  if decide (serviceVramUsage > st_availableVramGb status) then
    (m, [],
     {| register_success := false;
        register_message := NotEnoughVram serviceVramUsage (st_availableVramGb status) |})
  else
    let serviceInfo := new_service now serviceName serviceUrl ms in
    let m2 := with_services (map_set serviceName serviceInfo (services m)) m in
    (m2, saveServicesToConfig m2,
     {| register_success := true;
        register_message := ServiceRegistered serviceName |}).

(** Two registrations under way at the same time, [a] called first,
    with the probes of both answered in the same turn: the promise jobs
    then run in the order in which they were queued, first the two
    [updateTotalVram], then the two [getVRAMStatus], then the two
    [registerService]. The result is the manager left behind and the
    two answers. *)
Definition registerService_overlapping (gpuData : GpuData) (now : Z)
    (a b : string * string * list ModelEntry) (m : VRAMManager)
  : VRAMManager * RegisterServiceResult * RegisterServiceResult :=
  let m1 := updateTotalVram gpuData m in
  let m2 := updateTotalVram gpuData m1 in
  let status_a := getVRAMStatus_resume m2 in
  let status_b := getVRAMStatus_resume m2 in
  let '(m3, _, result_a) := registerService_resume now a.1.1 a.1.2 a.2 status_a m2 in
  let '(m4, _, result_b) := registerService_resume now b.1.1 b.1.2 b.2 status_b m3 in
  (m4, result_a, result_b).

(** ** The events of a sweep *)

(** One write of the configuration file followed by one call of a
    service, for each element in turn. *)
Definition unload_events (unloaded : list (list ServiceConfig * string * string))
  : list Event :=
  flat_map (fun u => [WriteConfig u.1.1; FetchUnload u.1.2 u.2]) unloaded.

(** ** The ledger in binary64

    The amounts of the class are JavaScript numbers, that is IEEE 754
    binary64. On whole numbers their arithmetic is that of [Z] used
    above; on fractions it rounds. This module repeats, with binary64
    amounts, the part of the class that computes [usedVramGb]: the
    registry and its sums, the probe, the admission test of
    [registerService] and the bookkeeping of [unloadModelInternal].
    What these functions do to the outside (the file written, the
    service called) is as above and is left out here. Binary64 is the
    Standard Library's [spec_float] at precision 53 and maximal exponent
    1024, with its correctly rounded operations. *)

Module Binary64.

Definition double : Type := spec_float.

Definition add : double → double → double := SFadd 53 1024.
Definition sub : double → double → double := SFsub 53 1024.
Definition div : double → double → double := SFdiv 53 1024.
Definition ltb : double → double → bool := SFltb.
Definition eqb : double → double → bool := SFeqb.

Definition is_nan (x : double) : bool :=
  match x with
  | S754_nan => true
  | _ => false
  end.

(** The double of a whole number. *)
Definition of_Z (n : Z) : double := binary_normalize 53 1024 n 0 false.

(** The double a decimal literal with one digit after the point
    denotes: [tenths 1] is [0.1], [tenths 2] is [0.2]. The division is
    correctly rounded, so this is the double nearest to the decimal. *)
Definition tenths (n : Z) : double := div (of_Z n) (of_Z 10).

Record ModelInfo := {
  model_name : string;
  vramUsageGb : double;
  lastUsed : Z
}.

Record ServiceInfo := {
  service_name : string;
  url : string;
  models : list ModelInfo;
  usedVramGb : double
}.

Record ModelEntry := {
  entry_name : string;
  entry_vramUsageGb : double
}.

Record VRAMManager := {
  services : list ServiceInfo;
  vramReserveGb : double;
  totalVramGb : double
}.

Fixpoint map_get (key : string) (m : list ServiceInfo) : option ServiceInfo :=
  match m with
  | [] => None
  | s :: m' => if decide (service_name s = key) then Some s else map_get key m'
  end.

Fixpoint map_set (key : string) (value : ServiceInfo) (m : list ServiceInfo)
  : list ServiceInfo :=
  match m with
  | [] => [value]
  | s :: m' =>
      if decide (service_name s = key) then value :: m'
      else s :: map_set key value m'
  end.

Definition sum_entries (ms : list ModelEntry) : double :=
  foldl (fun total model => add total (entry_vramUsageGb model)) (of_Z 0) ms.

Definition sum_models (ms : list ModelInfo) : double :=
  foldl (fun total model => add total (vramUsageGb model)) (of_Z 0) ms.

Definition sum_used (svcs : list ServiceInfo) : double :=
  foldl (fun total service => add total (usedVramGb service)) (of_Z 0) svcs.

(** [gpu.vram || 0]: [null], [0] and [NaN] give [0]. *)
Definition vram_or_zero (vram : option double) : double :=
  match vram with
  | None => of_Z 0
  | Some v => if eqb v (of_Z 0) || is_nan v then of_Z 0 else v
  end.

(** [updateTotalVram] (lines 89-107); the memory of a controller is in
    MB, as [si.graphics()] gives it. *)
Definition updateTotalVram (gpuData : option (list (option double)))
    (m : VRAMManager) : VRAMManager :=
  {| services := services m;
     vramReserveGb := vramReserveGb m;
     totalVramGb :=
       match gpuData with
       | Some (c :: cs) =>
           foldl (fun total gpu => add total (div (vram_or_zero gpu) (of_Z 1024)))
                 (of_Z 0) (c :: cs)
       | _ => of_Z 64
       end |}.

(** [Math.max(0, x)]. *)
Definition max_zero (x : double) : double :=
  if ltb (of_Z 0) x then x else if is_nan x then x else of_Z 0.

(** [availableVramGb] of [getVRAMStatus] (lines 242-247). *)
Definition availableVramGb (m : VRAMManager) : double :=
  max_zero (sub (sub (totalVramGb m) (sum_used (services m))) (vramReserveGb m)).

(** [registerService] (lines 268-308): the manager left behind and
    [success]. *)
Definition registerService (gpuData : option (list (option double))) (now : Z)
    (serviceName serviceUrl : string) (ms : list ModelEntry) (m : VRAMManager)
  : VRAMManager * bool :=
  let serviceVramUsage := sum_entries ms in
  let m1 := updateTotalVram gpuData m in
  if ltb (availableVramGb m1) serviceVramUsage then (m1, false)
  else
    let serviceInfo :=
      {| service_name := serviceName;
         url := serviceUrl;
         models :=
           map (fun model =>
                  {| model_name := entry_name model;
                     vramUsageGb := entry_vramUsageGb model;
                     lastUsed := now |})
               ms;
         usedVramGb := serviceVramUsage |} in
    ({| services := map_set serviceName serviceInfo (services m1);
        vramReserveGb := vramReserveGb m1;
        totalVramGb := totalVramGb m1 |}, true).

(** [unloadModelInternal] (lines 179-235): the manager left behind,
    [success] and [freedVramGb]. *)
Definition unloadModelInternal (modelName serviceName : string) (m : VRAMManager)
  : VRAMManager * bool * double :=
  match map_get serviceName (services m) with
  | None => (m, false, of_Z 0)
  | Some service =>
      match list_find (fun model => model_name model = modelName) (models service) with
      | None => (m, false, of_Z 0)
      | Some (modelIndex, model) =>
          let freed := vramUsageGb model in
          let service' :=
            {| service_name := service_name service;
               url := url service;
               models := delete modelIndex (models service);
               usedVramGb := sub (usedVramGb service) freed |} in
          ({| services := map_set serviceName service' (services m);
              vramReserveGb := vramReserveGb m;
              totalVramGb := totalVramGb m |}, true, freed)
      end
  end.

(** A manager with a reserve of 4 GB and nothing registered. *)
Definition fresh_manager : VRAMManager :=
  {| services := []; vramReserveGb := of_Z 4; totalVramGb := of_Z 0 |}.

(** [svc] registered with a model of 0.1 GB and one of 0.2 GB. *)
Definition fractions_registered : VRAMManager :=
  (registerService None 0 "svc" "http://svc"
     [{| entry_name := "small"; entry_vramUsageGb := tenths 1 |};
      {| entry_name := "large"; entry_vramUsageGb := tenths 2 |}]
     fresh_manager).1.

End Binary64.


(** ** The eviction policy of the specification

    [vramManager.ts] selects no victims: it has no priority tier, no
    [loaded] flag and no [requestVRAM] (only the tests call one). The
    policy is therefore taken from sections 3 and 4.3 of the
    specification. *)

Module EvictionPolicy.

(** Modelled from the spec: the static priority tier of a collaborator
    (section 3), absent from [vramManager.ts]. *)
Inductive Priority := low | medium | high.

(** Modelled from the spec: the order of the tiers, low before medium
    before high (section 4.3), absent from [vramManager.ts]. *)
Definition tier (p : Priority) : Z :=
  match p with low => 0 | medium => 1 | high => 2 end.

(** Modelled from the spec: the lease of section 3 with its [loaded]
    flag, absent from [vramManager.ts]. *)
Record Lease := {
  resource : string;
  amount : Z;
  lease_lastUsed : Z;
  loaded : bool
}.

(** Modelled from the spec: the collaborator of section 3 with its
    priority, absent from [vramManager.ts]. *)
Record Collaborator := {
  name : string;
  callback : string;
  priority : Priority;
  leases : list Lease
}.

(** Modelled from the spec: a lease together with its owner and the
    owner's tier, as the policy of section 4.3 ranks it; absent from
    [vramManager.ts]. *)
Record Victim := {
  owner : string;
  owner_priority : Priority;
  victim : Lease
}.

(** Modelled from the spec: the current leases in insertion order
    (collaborators in registration order, each with its leases in
    order); the registry of section 4.1 is absent from
    [vramManager.ts] in this form. *)
Definition candidates (registry : list Collaborator) : list Victim :=
  flat_map (fun c =>
              map (fun l => {| owner := name c; owner_priority := priority c;
                               victim := l |})
                  (leases c))
           registry.

(** Modelled from the spec: victims are drawn only from other
    collaborators' loaded leases (section 4.2, step 3); absent from
    [vramManager.ts]. *)
Definition eligible (excludeCollaborator : string) (v : Victim) : bool :=
  loaded (victim v) && bool_decide (owner v ≠ excludeCollaborator).

(** Modelled from the spec: the ordering of section 4.3, absent from
    [vramManager.ts]. [before a b]: [a] is evicted strictly before [b],
    by ascending tier and then by ascending last-used time stamp. *)
Definition before (a b : Victim) : bool :=
  (tier (owner_priority a) <? tier (owner_priority b))
  || ((tier (owner_priority a) =? tier (owner_priority b))
      && (lease_lastUsed (victim a) <? lease_lastUsed (victim b))).

(** Modelled from the spec: the same ordering of section 4.3, not
    strict: [a] may stand in front of [b] in the victim list. *)
Definition not_after (a b : Victim) : Prop :=
  tier (owner_priority a) < tier (owner_priority b)
  ∨ (tier (owner_priority a) = tier (owner_priority b)
     ∧ lease_lastUsed (victim a) ≤ lease_lastUsed (victim b)).

(** Modelled from the spec: the rank the policy of section 4.3 sorts
    by, tier first and last-used time stamp second. *)
Definition rank (v : Victim) : Z * Z :=
  (tier (owner_priority v), lease_lastUsed (victim v)).

(** Modelled from the spec: the stable sort of section 4.3 (ties
    broken by insertion order), absent from [vramManager.ts]. [v] goes
    in front of the first element that is not strictly before it. *)
Fixpoint place (v : Victim) (vs : list Victim) : list Victim :=
  match vs with
  | [] => [v]
  | w :: ws => if before w v then w :: place v ws else v :: w :: ws
  end.

(** Modelled from the spec: the stable sort of section 4.3, by
    insertion from the right. *)
Definition stable_sort (vs : list Victim) : list Victim :=
  foldr place [] vs.

(** Modelled from the spec: [selectVictims(leases, excludeCollaborator,
    minAmount)] of section 4.3, absent from [vramManager.ts]. It
    returns the whole ordering of the eligible leases; the caller
    applies a prefix of it ([applyVictims]). *)
Definition selectVictims (registry : list Collaborator)
    (excludeCollaborator : string) (minAmount : Z) : list Victim :=
  stable_sort (filter (fun v => eligible excludeCollaborator v) (candidates registry)).

(** Modelled from the spec: step 5 of section 4.2, absent from
    [vramManager.ts]: victims are applied in order and the caller stops
    as soon as the amount freed so far reaches [minAmount]. *)
Fixpoint applyVictims (minAmount : Z) (victims : list Victim) : list Victim :=
  match victims with
  | [] => []
  | v :: vs =>
      if decide (minAmount ≤ 0) then []
      else v :: applyVictims (minAmount - amount (victim v)) vs
  end.

End EvictionPolicy.

(** * Properties *)

(** ** Sums *)

Section Sums.
Context {A : Type} (f : A → Z).

Local Abbreviation sum l := (foldl (fun total x => total + f x) 0 l).

Lemma foldl_add_from (a : Z) (l : list A) :
  foldl (fun total x => total + f x) a l = a + sum l.
Proof.
  revert a. induction l as [|x l IH]; intros a; simpl.
  - lia.
  - rewrite (IH (a + f x)), (IH (0 + f x)). lia.
Qed.

Lemma sum_cons (x : A) (l : list A) : sum (x :: l) = f x + sum l.
Proof. simpl. rewrite foldl_add_from. lia. Qed.

Lemma sum_app (l1 l2 : list A) : sum (l1 ++ l2) = sum l1 + sum l2.
Proof.
  induction l1 as [|x l1 IH]; [reflexivity|].
  change ((x :: l1) ++ l2) with (x :: (l1 ++ l2)).
  rewrite !sum_cons, IH. lia.
Qed.

Lemma sum_delete (i : nat) (x : A) (l : list A) :
  l !! i = Some x → sum (delete i l) = sum l - f x.
Proof.
  revert i. induction l as [|y l IH]; intros [|i] Hi; try discriminate.
  - injection Hi as ->. change (delete 0%nat (x :: l)) with l.
    rewrite sum_cons. lia.
  - change (delete (S i) (y :: l)) with (y :: delete i l).
    rewrite !sum_cons, (IH i Hi). lia.
Qed.

Lemma sum_insert_same (i : nat) (x y : A) (l : list A) :
  l !! i = Some x → f y = f x → sum (<[i := y]> l) = sum l.
Proof.
  revert i. induction l as [|z l IH]; intros [|i] Hi Hf; try discriminate.
  - injection Hi as ->. change (<[0%nat := y]> (x :: l)) with (y :: l).
    rewrite !sum_cons. lia.
  - change (<[S i := y]> (z :: l)) with (z :: <[i := y]> l).
    rewrite !sum_cons, (IH i Hi Hf). lia.
Qed.

Lemma sum_nonneg (l : list A) : Forall (fun x => 0 ≤ f x) l → 0 ≤ sum l.
Proof.
  induction 1 as [|x l Hx _ IH]; [reflexivity|]. rewrite sum_cons. lia.
Qed.
End Sums.

(** ** The map of services *)

Lemma map_get_Some (key : string) (m : list ServiceInfo) (s : ServiceInfo) :
  map_get key m = Some s → service_name s = key ∧ s ∈ m.
Proof.
  induction m as [|x m IH]; simpl; [discriminate|].
  destruct (decide (service_name x = key)) as [Hx|Hx]; intros H.
  - injection H as <-. split; [exact Hx | left].
  - destruct (IH H) as [? ?]. split; [assumption | by right].
Qed.

Lemma map_get_None (key : string) (m : list ServiceInfo) :
  map_get key m = None ↔ key ∉ map service_name m.
Proof.
  induction m as [|x m IH]; simpl.
  - split; [intros _; apply not_elem_of_nil | reflexivity].
  - rewrite not_elem_of_cons. destruct (decide (service_name x = key)) as [Hx|Hx].
    + split; [discriminate | intros [Hne _]; congruence].
    + rewrite IH. split; [intros ?; split; [congruence | assumption] | tauto].
Qed.

Lemma map_get_is_Some (key : string) (m : list ServiceInfo) :
  is_Some (map_get key m) ↔ key ∈ map service_name m.
Proof.
  rewrite <- not_eq_None_Some, map_get_None.
  destruct (decide (key ∈ map service_name m)); tauto.
Qed.

Lemma map_set_names (key : string) (value : ServiceInfo) (m : list ServiceInfo) :
  service_name value = key →
  map service_name (map_set key value m)
  = if decide (key ∈ map service_name m) then map service_name m
    else map service_name m ++ [key].
Proof.
  intros Hv. induction m as [|x m IH].
  - simpl map_set. simpl map. rewrite Hv.
    destruct (decide (key ∈ [])) as [Hin|_]; [|reflexivity].
    by apply not_elem_of_nil in Hin.
  - simpl map_set. destruct (decide (service_name x = key)) as [Hx|Hx].
    + change (map service_name (value :: m))
        with (service_name value :: map service_name m).
      change (map service_name (x :: m)) with (service_name x :: map service_name m).
      rewrite Hv, Hx. destruct (decide (key ∈ key :: map service_name m)) as [_|Hn];
        [reflexivity|]. exfalso. apply Hn. left.
    + change (map service_name (x :: map_set key value m))
        with (service_name x :: map service_name (map_set key value m)).
      change (map service_name (x :: m)) with (service_name x :: map service_name m).
      rewrite IH.
      destruct (decide (key ∈ map service_name m)) as [Hin|Hin];
        destruct (decide (key ∈ service_name x :: map service_name m)) as [Hin'|Hin'];
        try reflexivity.
      * exfalso. apply Hin'. by right.
      * exfalso. apply elem_of_cons in Hin' as [?|?]; [congruence | tauto].
Qed.

Lemma map_set_names_present (key : string) (value : ServiceInfo)
    (m : list ServiceInfo) :
  service_name value = key → is_Some (map_get key m) →
  map service_name (map_set key value m) = map service_name m.
Proof.
  intros Hv Hin. rewrite map_set_names by assumption.
  apply decide_True. by apply map_get_is_Some.
Qed.

Lemma map_set_NoDup (key : string) (value : ServiceInfo) (m : list ServiceInfo) :
  service_name value = key →
  NoDup (map service_name m) → NoDup (map service_name (map_set key value m)).
Proof.
  intros Hv Hnd. rewrite map_set_names by assumption.
  destruct (decide (key ∈ map service_name m)) as [Hin|Hin]; [assumption|].
  apply NoDup_app. split; [assumption|]. split.
  - intros x Hx Hk. apply list_elem_of_singleton in Hk. congruence.
  - apply NoDup_singleton.
Qed.

Lemma map_get_Forall (P : ServiceInfo → Prop) (key : string)
    (m : list ServiceInfo) (s : ServiceInfo) :
  Forall P m → map_get key m = Some s → P s.
Proof.
  intros HP Hget. apply map_get_Some in Hget as [_ Hin].
  rewrite Forall_forall in HP. by apply HP.
Qed.

Lemma map_get_map_set (key key' : string) (value : ServiceInfo)
    (m : list ServiceInfo) :
  service_name value = key →
  map_get key' (map_set key value m)
  = if decide (key = key') then Some value else map_get key' m.
Proof.
  intros Hv. induction m as [|x m IH]; simpl.
  - rewrite Hv. destruct (decide (key = key')); reflexivity.
  - destruct (decide (service_name x = key)) as [Hx|Hx]; simpl.
    + rewrite Hv, Hx. destruct (decide (key = key')); reflexivity.
    + rewrite IH. destruct (decide (service_name x = key')) as [Hx'|Hx'];
        [|reflexivity].
      rewrite decide_False by congruence. reflexivity.
Qed.

Lemma map_set_other (key key' : string) (value : ServiceInfo)
    (m : list ServiceInfo) :
  service_name value = key → key' ≠ key →
  map_get key' (map_set key value m) = map_get key' m.
Proof.
  intros Hv Hne. rewrite map_get_map_set by exact Hv.
  apply decide_False. congruence.
Qed.

Lemma map_set_same (key : string) (value : ServiceInfo) (m : list ServiceInfo) :
  service_name value = key → map_get key (map_set key value m) = Some value.
Proof.
  intros Hv. rewrite map_get_map_set by exact Hv. by apply decide_True.
Qed.

Lemma map_set_Forall (P : ServiceInfo → Prop) (key : string) (value : ServiceInfo)
    (m : list ServiceInfo) :
  P value → Forall P m → Forall P (map_set key value m).
Proof.
  intros Hv. induction 1 as [|x m Hx Hm IH]; simpl.
  - by constructor.
  - destruct (decide (service_name x = key)); by constructor.
Qed.

(** Every entry of [map_set key value m] is [value] or an entry of [m]
    other than the first one under [key]. *)
Lemma map_set_elem (key : string) (value s : ServiceInfo) (m : list ServiceInfo) :
  s ∈ map_set key value m → s = value ∨ s ∈ m.
Proof.
  induction m as [|x m IH]; simpl.
  - intros H. apply list_elem_of_singleton in H. by left.
  - destruct (decide (service_name x = key)); intros H;
      apply elem_of_cons in H as [H|H].
    + by left.
    + right. by right.
    + right. subst. left.
    + destruct (IH H) as [?|?]; [by left | right; by right].
Qed.

Lemma sum_map_set (f : ServiceInfo → Z) (key : string) (value : ServiceInfo)
    (m : list ServiceInfo) :
  foldl (fun total s => total + f s) 0 (map_set key value m)
  = foldl (fun total s => total + f s) 0 m
    - from_option f 0 (map_get key m) + f value.
Proof.
  induction m as [|x m IH]; simpl map_set; simpl map_get.
  - simpl. lia.
  - destruct (decide (service_name x = key)).
    + rewrite !(sum_cons f). simpl. lia.
    + rewrite !(sum_cons f), IH. lia.
Qed.

Lemma committed_consistent (m : VRAMManager) :
  usage_consistent m → committed m = sum_used (services m).
Proof.
  unfold usage_consistent, committed, sum_used.
  induction 1 as [|s l Hs _ IH]; [reflexivity|].
  rewrite (sum_cons (fun s => sum_models (models s))), (sum_cons usedVramGb).
  rewrite IH, Hs. reflexivity.
Qed.

(** ** [unloadModelInternal] *)

(** The two ways a call of [unloadModelInternal] starts: it returns at
    once, not found, with the manager untouched and nothing done; or it
    finds the first model of that name, takes it out of its service,
    writes the configuration file and starts the [fetch]. *)
Lemma unloadModelInternal_start_cases (modelName serviceName : string)
    (m : VRAMManager) :
  (∃ result,
      unloadModelInternal_start modelName serviceName m = (m, [], Returned result)
      ∧ unload_success result = false ∧ freedVramGb result = 0
      ∧ (map_get serviceName (services m) = None
         ∨ ∃ service, map_get serviceName (services m) = Some service
                      ∧ Forall (fun model => model_name model ≠ modelName)
                               (models service)))
  ∨ (∃ service i model,
        map_get serviceName (services m) = Some service
        ∧ models service !! i = Some model
        ∧ model_name model = modelName
        ∧ (∀ j y, models service !! j = Some y → (j < i)%nat →
                  model_name y ≠ modelName)
        ∧ unloadModelInternal_start modelName serviceName m
          = (with_services
               (map_set serviceName (splice_model i (vramUsageGb model) service)
                        (services m)) m,
             saveServicesToConfig
               (with_services
                  (map_set serviceName (splice_model i (vramUsageGb model) service)
                           (services m)) m)
             ++ [FetchUnload (url service) modelName],
             AwaitingFetch (vramUsageGb model) modelName serviceName)).
Proof.
  unfold unloadModelInternal_start, findIndex.
  destruct (map_get serviceName (services m)) as [service|] eqn:Hget.
  - destruct (list_find _ (models service)) as [[i model]|] eqn:Hfind.
    + right. apply list_find_Some in Hfind as (Hi & Hname & Hfirst).
      exists service, i, model. repeat split; assumption || reflexivity.
    + left. eexists. repeat split. right. exists service. split; [reflexivity|].
      by apply list_find_None in Hfind.
  - left. eexists. repeat split. by left.
Qed.

Lemma splice_model_consistent (service : ServiceInfo) (i : nat) (model : ModelInfo) :
  models service !! i = Some model →
  usedVramGb service = sum_models (models service) →
  usedVramGb (splice_model i (vramUsageGb model) service)
  = sum_models (models (splice_model i (vramUsageGb model) service)).
Proof.
  intros Hi Hs. simpl. unfold sum_models in *.
  rewrite (sum_delete vramUsageGb i model) by assumption. lia.
Qed.

Lemma unload_keeps_consistent : kept_by_unload usage_consistent.
Proof.
  intros modelName serviceName m Hm.
  destruct (unloadModelInternal_start_cases modelName serviceName m)
    as [(result & -> & _)|(service & i & model & Hget & Hi & _ & _ & ->)];
    [exact Hm|].
  unfold usage_consistent in *. simpl.
  apply map_set_Forall; [|exact Hm].
  apply splice_model_consistent; [exact Hi|].
  exact (map_get_Forall _ _ _ _ Hm Hget).
Qed.

Lemma unload_keeps_nonneg : kept_by_unload amounts_nonneg.
Proof.
  intros modelName serviceName m Hm.
  destruct (unloadModelInternal_start_cases modelName serviceName m)
    as [(result & -> & _)|(service & i & model & Hget & Hi & _ & _ & ->)];
    [exact Hm|].
  unfold amounts_nonneg in *. simpl.
  apply map_set_Forall; [|exact Hm]. simpl.
  apply Forall_delete.
  exact (map_get_Forall _ _ _ _ Hm Hget).
Qed.

Lemma unload_keeps_reserve (r : Z) :
  kept_by_unload (fun m => vramReserveGb m = r).
Proof.
  intros modelName serviceName m Hm.
  destruct (unloadModelInternal_start_cases modelName serviceName m)
    as [(result & -> & _)|(service & i & model & _ & _ & _ & _ & ->)];
    exact Hm.
Qed.

Lemma unload_keeps_timeout (t : Z) :
  kept_by_unload (fun m => unloadTimeoutMinutes m = t).
Proof.
  intros modelName serviceName m Hm.
  destruct (unloadModelInternal_start_cases modelName serviceName m)
    as [(result & -> & _)|(service & i & model & _ & _ & _ & _ & ->)];
    exact Hm.
Qed.

Lemma unload_keeps_names (names : list string) :
  kept_by_unload (fun m => map service_name (services m) = names).
Proof.
  intros modelName serviceName m Hm.
  destruct (unloadModelInternal_start_cases modelName serviceName m)
    as [(result & -> & _)|(service & i & model & Hget & _ & _ & _ & ->)];
    [exact Hm|].
  simpl. rewrite map_set_names_present; [exact Hm | |by rewrite Hget].
  simpl. by apply map_get_Some in Hget as [? _].
Qed.

Lemma unload_keeps_ledger (total : Z) : kept_by_unload (ledger_ok total).
Proof.
  intros modelName serviceName m (Hc & Hn & Hle).
  split; [by apply unload_keeps_consistent|].
  split; [by apply unload_keeps_nonneg|].
  destruct (unloadModelInternal_start_cases modelName serviceName m)
    as [(result & -> & _)|(service & i & model & Hget & Hi & _ & _ & ->)];
    [exact Hle|].
  simpl. unfold sum_used in *. rewrite sum_map_set, Hget. simpl.
  assert (0 ≤ vramUsageGb model); [|lia].
  pose proof (map_get_Forall _ _ _ _ Hn Hget) as Hs. simpl in Hs.
  rewrite Forall_lookup in Hs. by apply (Hs i).
Qed.

(** ** [autoUnloadInactiveModels] *)

Lemma sweep_models_keeps (P : VRAMManager → Prop) :
  kept_by_unload P →
  ∀ fuel now serviceName i m, P m → P (sweep_models fuel now serviceName i m).1.1.
Proof.
  intros HP fuel. induction fuel as [|fuel IH]; intros now serviceName i m Hm;
    simpl; [exact Hm|].
  destruct (map_get serviceName (services m) ≫= _) as [model|]; [|exact Hm].
  destruct (inactive now m model); [|by apply IH].
  pose proof (HP (model_name model) serviceName m Hm) as H1.
  destruct (unloadModelInternal_start _ _ m) as [[m1 events] pending].
  pose proof (IH now serviceName (S i) m1 H1) as H2.
  destruct (sweep_models fuel now serviceName (S i) m1) as [[m2 events'] n].
  exact H2.
Qed.

Lemma sweep_steps_keep (P : VRAMManager → Prop) :
  kept_by_unload P →
  ∀ now names acc, P acc.1.1 → P (foldl (sweep_step now) acc names).1.1.
Proof.
  intros HP now names. induction names as [|serviceName names IH];
    intros [[m1 events] n] Hacc; simpl; [exact Hacc|].
  apply IH. unfold sweep_service.
  pose proof (sweep_models_keeps P HP (S (length (models_of serviceName m1)))
                now serviceName 0 m1 Hacc) as H.
  destruct (sweep_models _ now serviceName 0 m1) as [[m2 events'] n'].
  exact H.
Qed.

Lemma autoUnload_keeps (P : VRAMManager → Prop) :
  kept_by_unload P →
  ∀ now m, P m → P (autoUnloadInactiveModels now m).1.1.
Proof.
  intros HP now m Hm. unfold autoUnloadInactiveModels.
  by apply sweep_steps_keep.
Qed.

(** ** [getVRAMStatus] and [registerService] *)

Lemma updateTotalVram_probed (gpuData : GpuData) (m : VRAMManager) :
  updateTotalVram gpuData m = with_totalVramGb (probed gpuData) m.
Proof. destruct gpuData as [[|c cs]|]; reflexivity. Qed.

Lemma sum_models_of_entries (now : Z) (ms : list ModelEntry) :
  sum_models
    (map (fun model =>
            {| model_name := entry_name model;
               vramUsageGb := entry_vramUsageGb model;
               lastUsed := now |}) ms)
  = sum_entries ms.
Proof.
  unfold sum_models, sum_entries. induction ms as [|e ms IH]; [reflexivity|].
  change (map ?f (e :: ms)) with (f e :: map f ms).
  rewrite (sum_cons vramUsageGb), (sum_cons entry_vramUsageGb), IH. reflexivity.
Qed.

(** The two ways [registerService] ends. *)
Lemma registerService_cases (gpuData : GpuData) (now : Z)
    (serviceName serviceUrl : string) (ms : list ModelEntry) (m : VRAMManager) :
  let available :=
    Z.max 0 (probed gpuData - sum_used (services m) - vramReserveGb m) in
  let m1 := with_totalVramGb (probed gpuData) m in
  let m2 :=
    with_services
      (map_set serviceName (new_service now serviceName serviceUrl ms) (services m))
      m1 in
  (sum_entries ms > available
   ∧ registerService gpuData now serviceName serviceUrl ms m
     = (m1, [], {| register_success := false;
                   register_message := NotEnoughVram (sum_entries ms) available |}))
  ∨ (sum_entries ms ≤ available
     ∧ registerService gpuData now serviceName serviceUrl ms m
       = (m2, [WriteConfig (servicesConfig m2)],
          {| register_success := true;
             register_message := ServiceRegistered serviceName |})).
Proof.
  intros available m1 m2. unfold registerService, getVRAMStatus.
  rewrite updateTotalVram_probed. simpl.
  fold available. destruct (decide (sum_entries ms > available)) as [H|H].
  - left. split; [exact H | reflexivity].
  - right. split; [lia | reflexivity].
Qed.

Lemma registerService_keeps_consistent (gpuData : GpuData) (now : Z)
    (serviceName serviceUrl : string) (ms : list ModelEntry) (m : VRAMManager) :
  usage_consistent m →
  usage_consistent (registerService gpuData now serviceName serviceUrl ms m).1.1.
Proof.
  intros Hm.
  destruct (registerService_cases gpuData now serviceName serviceUrl ms m)
    as [[_ ->]|[_ ->]]; [exact Hm|].
  unfold usage_consistent. simpl. apply map_set_Forall; [|exact Hm].
  simpl. symmetry. apply sum_models_of_entries.
Qed.

Lemma registerService_keeps_ledger (gpuData : GpuData) (now : Z)
    (serviceName serviceUrl : string) (ms : list ModelEntry) (m : VRAMManager) :
  Forall (fun model => 0 ≤ entry_vramUsageGb model) ms →
  ledger_ok (probed gpuData) m →
  ledger_ok (probed gpuData)
            (registerService gpuData now serviceName serviceUrl ms m).1.1.
Proof.
  intros Hms (Hc & Hn & Hle).
  split; [by apply registerService_keeps_consistent|].
  destruct (registerService_cases gpuData now serviceName serviceUrl ms m)
    as [[_ ->]|[Hfit ->]]; [by split|].
  simpl. split.
  - unfold amounts_nonneg. simpl. apply map_set_Forall; [|exact Hn].
    simpl. apply Forall_map. simpl. exact Hms.
  - unfold sum_used in *. rewrite sum_map_set. simpl.
    assert (0 ≤ from_option usedVramGb 0 (map_get serviceName (services m))).
    { destruct (map_get serviceName (services m)) as [old|] eqn:Hget; simpl; [|lia].
      rewrite (map_get_Forall _ _ _ _ Hc Hget).
      apply (sum_nonneg vramUsageGb).
      exact (map_get_Forall _ _ _ _ Hn Hget). }
    lia.
Qed.

(** ** [updateModelUsage] *)

Lemma updateModelUsage_cases (now : Z) (modelName serviceName : string)
    (m : VRAMManager) :
  updateModelUsage now modelName serviceName m = (m, false)
  ∨ (∃ service i model,
        map_get serviceName (services m) = Some service
        ∧ models service !! i = Some model
        ∧ model_name model = modelName
        ∧ updateModelUsage now modelName serviceName m
          = (with_services
               (map_set serviceName
                  {| service_name := service_name service;
                     url := url service;
                     models := <[i := touch_model now model]> (models service);
                     usedVramGb := usedVramGb service |}
                  (services m)) m, true)).
Proof.
  unfold updateModelUsage, findIndex.
  destruct (map_get serviceName (services m)) as [service|] eqn:Hget; [|by left].
  destruct (list_find _ (models service)) as [[i model]|] eqn:Hfind; [|by left].
  right. apply list_find_Some in Hfind as (Hi & Hname & _).
  exists service, i, model. repeat split; assumption || reflexivity.
Qed.

Lemma updateModelUsage_keeps_consistent (now : Z) (modelName serviceName : string)
    (m : VRAMManager) :
  usage_consistent m →
  usage_consistent (updateModelUsage now modelName serviceName m).1.
Proof.
  intros Hm.
  destruct (updateModelUsage_cases now modelName serviceName m)
    as [->|(service & i & model & Hget & Hi & _ & ->)]; [exact Hm|].
  unfold usage_consistent. simpl. apply map_set_Forall; [|exact Hm]. simpl.
  unfold sum_models.
  rewrite (sum_insert_same vramUsageGb i model) by (assumption || reflexivity).
  exact (map_get_Forall _ _ _ _ Hm Hget).
Qed.

Lemma updateModelUsage_keeps_ledger (total now : Z) (modelName serviceName : string)
    (m : VRAMManager) :
  ledger_ok total m →
  ledger_ok total (updateModelUsage now modelName serviceName m).1.
Proof.
  intros (Hc & Hn & Hle).
  split; [by apply updateModelUsage_keeps_consistent|].
  destruct (updateModelUsage_cases now modelName serviceName m)
    as [->|(service & i & model & Hget & Hi & _ & ->)]; [by split|].
  simpl. pose proof (map_get_Forall _ _ _ _ Hn Hget) as Hs. simpl in Hs. split.
  - unfold amounts_nonneg. simpl. apply map_set_Forall; [|exact Hn]. simpl.
    apply Forall_insert; [exact Hs|]. simpl.
    rewrite Forall_lookup in Hs. by apply (Hs i).
  - unfold sum_used in *. rewrite sum_map_set, Hget. simpl. lia.
Qed.

(** ** [loadServicesFromConfig] *)

Lemma load_service_consistent (now : Z) (service : ServiceConfig) :
  usedVramGb (load_service now service)
  = sum_models (models (load_service now service)).
Proof. simpl. symmetry. apply sum_models_of_entries. Qed.

Lemma loadServicesFromConfig_keeps_consistent (now : Z)
    (file : option (list ServiceConfig)) (m : VRAMManager) :
  usage_consistent m → usage_consistent (loadServicesFromConfig now file m).
Proof.
  destruct file as [config|]; [|trivial]. unfold usage_consistent. simpl.
  generalize (services m). induction config as [|service config IH];
    intros svcs Hsvcs; simpl; [exact Hsvcs|].
  apply IH. apply map_set_Forall; [|exact Hsvcs].
  apply load_service_consistent.
Qed.

(** ** Histories *)

(** The state a call of [unloadModelInternal] leaves is the state its
    start leaves: what follows the [await] has no access to it. *)
Lemma unloadModelInternal_state (outcome : FetchOutcome)
    (modelName serviceName : string) (m : VRAMManager) :
  (unloadModelInternal outcome modelName serviceName m).1.1
  = (unloadModelInternal_start modelName serviceName m).1.1.
Proof.
  unfold unloadModelInternal.
  destruct (unloadModelInternal_start modelName serviceName m) as [[m' events] pending].
  destruct (unloadModelInternal_finish pending outcome). reflexivity.
Qed.

Lemma run_keeps_consistent (m : VRAMManager) (c : Call) :
  usage_consistent m → usage_consistent (run m c).
Proof.
  intros Hm. destruct c; simpl.
  - by apply registerService_keeps_consistent.
  - unfold unloadModel. rewrite unloadModelInternal_state.
    by apply unload_keeps_consistent.
  - by apply updateModelUsage_keeps_consistent.
  - by apply autoUnload_keeps; [apply unload_keeps_consistent|].
  - rewrite updateTotalVram_probed. exact Hm.
  - by apply loadServicesFromConfig_keeps_consistent.
Qed.

Lemma run_reserve (m : VRAMManager) (c : Call) :
  vramReserveGb (run m c) = vramReserveGb m.
Proof.
  destruct c; simpl.
  - destruct (registerService_cases gpuData now serviceName serviceUrl ms m)
      as [[_ ->]|[_ ->]]; reflexivity.
  - unfold unloadModel. rewrite unloadModelInternal_state.
    by apply (unload_keeps_reserve (vramReserveGb m)).
  - destruct (updateModelUsage_cases now modelName serviceName m)
      as [->|(service & i & model & _ & _ & _ & ->)]; reflexivity.
  - by apply (autoUnload_keeps _ (unload_keeps_reserve (vramReserveGb m))).
  - rewrite updateTotalVram_probed. reflexivity.
  - destruct file; reflexivity.
Qed.

Lemma run_calls_reserve (m : VRAMManager) (cs : list Call) :
  vramReserveGb (run_calls m cs) = vramReserveGb m.
Proof.
  unfold run_calls. revert m. induction cs as [|c cs IH]; intros m; simpl;
    [reflexivity|]. rewrite IH. apply run_reserve.
Qed.

Lemma run_keeps_ledger (total : Z) (m : VRAMManager) (c : Call) :
  public_call total c → ledger_ok total m → ledger_ok total (run m c).
Proof.
  intros Hc Hm. destruct c; simpl in *.
  - destruct Hc as [<- Hms]. by apply registerService_keeps_ledger.
  - unfold unloadModel. rewrite unloadModelInternal_state.
    by apply unload_keeps_ledger.
  - by apply updateModelUsage_keeps_ledger.
  - by apply autoUnload_keeps; [apply unload_keeps_ledger|].
  - rewrite updateTotalVram_probed. exact Hm.
  - contradiction.
Qed.

Lemma run_calls_keep_ledger (total : Z) (cs : list Call) (m : VRAMManager) :
  Forall (public_call total) cs → ledger_ok total m →
  ledger_ok total (run_calls m cs).
Proof.
  unfold run_calls. intros Hcs. revert m.
  induction Hcs as [|c cs Hc _ IH]; intros m Hm; simpl; [exact Hm|].
  apply IH. by apply run_keeps_ledger.
Qed.

(** X19. Usage consistency on whole numbers: with amounts that are
    whole numbers of GB, in every state the manager can be in (built by
    the constructor from any configuration file, then taken through any
    history of registrations, re-registrations, unloads, touches,
    sweeps, status reads and loads of a configuration file, one call at
    a time) the cached [usedVramGb] of every service equals the sum of
    [vramUsageGb] over the models that service holds. *)
Theorem usage_consistent_always (maxVram reserve timeout now : Z)
    (autoUnload : bool) (file : option (list ServiceConfig)) (calls : list Call) :
  usage_consistent
    (run_calls (construct maxVram reserve autoUnload timeout now file) calls).
Proof.
  assert (Hinit : usage_consistent
                    (construct maxVram reserve autoUnload timeout now file)).
  { apply loadServicesFromConfig_keeps_consistent. constructor. }
  revert Hinit. generalize (construct maxVram reserve autoUnload timeout now file).
  unfold run_calls. induction calls as [|c calls IH]; intros m Hm; simpl;
    [exact Hm|].
  apply IH. by apply run_keeps_consistent.
Qed.

(** X18. The ledger bound of calls that do not overlap: on a machine
    whose probe answers [total] GB every time, with a reserve of at
    most [total], every state reached from the empty registry through
    public operations that run one at a time (registerService with
    whole-number amounts that are not negative, unloadModel,
    updateModelUsage, autoUnloadInactiveModels, getVRAMStatus) commits
    at most [total] less the reserve, and that is also what
    [getVRAMStatus] shows to a caller: the used amount it reports is at
    most the total it reports less the reserve. *)
Theorem ledger_invariant (total maxVram reserve timeout now : Z)
    (autoUnload : bool) (calls : list Call) :
  reserve ≤ total →
  Forall (public_call total) calls →
  committed (run_calls (construct maxVram reserve autoUnload timeout now None) calls)
  ≤ total - reserve
  ∧ ∀ gpuData status,
      probed gpuData = total →
      status = (getVRAMStatus gpuData
                  (run_calls (construct maxVram reserve autoUnload timeout now None)
                             calls)).2 →
      st_usedVramGb status ≤ st_totalVramGb status - reserve.
Proof.
  intros Hreserve Hcalls.
  set (m0 := construct maxVram reserve autoUnload timeout now None).
  assert (H0 : ledger_ok total m0).
  { repeat split; try constructor. unfold sum_used. simpl. lia. }
  destruct (run_calls_keep_ledger total calls m0 Hcalls H0) as (Hc & _ & Hle).
  rewrite run_calls_reserve in Hle. split.
  - rewrite committed_consistent by exact Hc. exact Hle.
  - intros gpuData status Hprobe ->. unfold getVRAMStatus.
    rewrite updateTotalVram_probed, Hprobe. exact Hle.
Qed.

Lemma ledger_invariant_witness :
  4 ≤ 64
  ∧ committed
      (run_calls (construct 60 4 true 30 0 None)
         [RegisterService None 0 "svc-a" "http://svc-a" [entry "model-a" 20];
          RegisterService None 5 "svc-b" "http://svc-b" [entry "model-b" 30];
          RegisterService None 9 "svc-c" "http://svc-c" [entry "model-c" 15];
          UpdateModelUsage 1900000 "model-b" "svc-b";
          AutoUnloadInactiveModels 1900000;
          GetVRAMStatus None;
          RegisterService None 1900001 "svc-c" "http://svc-c" [entry "model-c" 25]])
    = 55
  ∧ committed
      (run_calls (construct 60 4 true 30 0 None)
         [RegisterService None 0 "svc-a" "http://svc-a" [entry "model-a" 20];
          RegisterService None 5 "svc-b" "http://svc-b" [entry "model-b" 30];
          RegisterService None 9 "svc-c" "http://svc-c" [entry "model-c" 15];
          UpdateModelUsage 1900000 "model-b" "svc-b";
          AutoUnloadInactiveModels 1900000;
          GetVRAMStatus None;
          RegisterService None 1900001 "svc-c" "http://svc-c" [entry "model-c" 25]])
    ≤ 64 - 4.
Proof.
  split; [lia|]. split; [reflexivity|].
  apply (ledger_invariant 64 60 4 30 0 true); [lia|].
  repeat constructor; simpl; lia.
Defined.

(** Without the condition on the amounts the bound on what is
    committed is lost: a registration whose amounts sum to 50
    but include a negative one passes the admission test, and unloading
    the negative model leaves 150 GB committed on a 64 GB machine. *)
Example ledger_needs_nonneg_amounts :
  committed
    (run_calls fresh_manager
       [RegisterService None 0 "svc" "http://svc" [entry "m1" (-100); entry "m2" 150];
        UnloadModel FetchOk "m1" "svc"])
  = 150.
Proof. reflexivity. Qed.

(** ** Admission *)

(** A registration that asks for more than is available is turned down:
    the probe is stored, nothing else changes and nothing is done. *)
Lemma registerService_reject (gpuData : GpuData) (now : Z)
    (serviceName serviceUrl : string) (ms : list ModelEntry) (m : VRAMManager) :
  sum_entries ms > Z.max 0 (probed gpuData - sum_used (services m) - vramReserveGb m) →
  registerService gpuData now serviceName serviceUrl ms m
  = (with_totalVramGb (probed gpuData) m, [],
     {| register_success := false;
        register_message :=
          NotEnoughVram (sum_entries ms)
            (Z.max 0 (probed gpuData - sum_used (services m) - vramReserveGb m)) |}).
Proof.
  intros H.
  destruct (registerService_cases gpuData now serviceName serviceUrl ms m)
    as [[_ ->]|[Hfit _]]; [reflexivity | lia].
Qed.

Lemma getVRAMStatus_available (gpuData : GpuData) (m : VRAMManager) :
  st_availableVramGb (getVRAMStatus gpuData m).2
  = Z.max 0 (probed gpuData - sum_used (services m) - vramReserveGb m).
Proof. unfold getVRAMStatus. rewrite updateTotalVram_probed. reflexivity. Qed.

(** Whether it accepts or not, [registerService] calls no service and
    leaves the entry of every other service as it was. *)
Lemma registerService_touches_only_caller (gpuData : GpuData) (now : Z)
    (serviceName serviceUrl : string) (ms : list ModelEntry) (m : VRAMManager) :
  let '(m', events, _) := registerService gpuData now serviceName serviceUrl ms m in
  (∀ url modelName, FetchUnload url modelName ∉ events)
  ∧ ∀ other, other ≠ serviceName →
             map_get other (services m') = map_get other (services m).
Proof.
  destruct (registerService_cases gpuData now serviceName serviceUrl ms m)
    as [[_ ->]|[_ ->]].
  - split; [intros ? ?; apply not_elem_of_nil | reflexivity].
  - split.
    + intros ? ? H. apply list_elem_of_singleton in H. discriminate.
    + intros other Hne. simpl. by apply map_set_other.
Qed.

(** C2, as the code has it. Admission without eviction: when a
    registration for amount A finds less than A available, the manager
    turns it down with a not-enough-VRAM message; it evicts no lease of
    any service, calls no service, writes no configuration file and
    leaves every service, model, amount and time stamp as it was. *)
Theorem registerService_never_evicts (gpuData : GpuData) (now : Z)
    (serviceName serviceUrl : string) (ms : list ModelEntry) (m : VRAMManager) :
  st_availableVramGb (getVRAMStatus gpuData m).2 < sum_entries ms →
  ∃ m' message,
    registerService gpuData now serviceName serviceUrl ms m
    = (m', [], {| register_success := false; register_message := message |})
    ∧ message = NotEnoughVram (sum_entries ms)
                  (st_availableVramGb (getVRAMStatus gpuData m).2)
    ∧ services m' = services m.
Proof.
  rewrite getVRAMStatus_available. intros H.
  eexists _, _. split; [apply registerService_reject; lia|].
  split; reflexivity.
Qed.

Lemma registerService_never_evicts_witness :
  st_availableVramGb (getVRAMStatus None two_services).2 < sum_entries [entry "model-c" 15]
  ∧ ∃ m' message,
      registerService None 9 "svc-c" "http://svc-c" [entry "model-c" 15] two_services
      = (m', [], {| register_success := false; register_message := message |})
      ∧ message = NotEnoughVram (sum_entries [entry "model-c" 15])
                    (st_availableVramGb (getVRAMStatus None two_services).2)
      ∧ services m' = services two_services.
Proof.
  split; [reflexivity|].
  apply (registerService_never_evicts None 9 "svc-c" "http://svc-c"
           [entry "model-c" 15] two_services).
  reflexivity.
Defined.

(** C2 as the specification states it fails on the scenario of its
    section 8: with 10 GB available, the registration of [svc-c] for
    15 GB is not accepted after evicting 5 GB from the others; it is
    turned down and [svc-a] and [svc-b] keep their models. *)
Lemma admission_evicts_counterexample :
  st_availableVramGb (getVRAMStatus None two_services).2 = 10
  ∧ (registerService None 9 "svc-c" "http://svc-c" [entry "model-c" 15]
       two_services).2
    = {| register_success := false; register_message := NotEnoughVram 15 10 |}
  ∧ (registerService None 9 "svc-c" "http://svc-c" [entry "model-c" 15]
       two_services).1.2 = []
  ∧ services (registerService None 9 "svc-c" "http://svc-c" [entry "model-c" 15]
                two_services).1.1
    = services two_services.
Proof. repeat split. Qed.

(** C3. Rejection atomicity: a registration whose total exceeds the
    capacity less the reserve (so that it could not fit even if every
    other service were evicted) is turned down with a capacity message,
    and the registry is exactly as before: same services, models,
    amounts and time stamps, nothing written, nobody called. *)
Theorem registerService_rejection_atomic (gpuData : GpuData) (now : Z)
    (serviceName serviceUrl : string) (ms : list ModelEntry) (m : VRAMManager) :
  vramReserveGb m ≤ probed gpuData →
  0 ≤ sum_used (services m) →
  probed gpuData - vramReserveGb m < sum_entries ms →
  ∃ m' available,
    registerService gpuData now serviceName serviceUrl ms m
    = (m', [], {| register_success := false;
                  register_message := NotEnoughVram (sum_entries ms) available |})
    ∧ services m' = services m.
Proof.
  intros Hreserve Hused Hbig.
  eexists _, _. split; [apply registerService_reject; lia | reflexivity].
Qed.

Lemma registerService_rejection_atomic_witness :
  vramReserveGb two_services ≤ probed None
  ∧ 0 ≤ sum_used (services two_services)
  ∧ probed None - vramReserveGb two_services < sum_entries [entry "large" 70]
  ∧ ∃ m' available,
      registerService None 9 "large-service" "http://localhost:8888"
        [entry "large" 70] two_services
      = (m', [], {| register_success := false;
                    register_message :=
                      NotEnoughVram (sum_entries [entry "large" 70]) available |})
      ∧ services m' = services two_services.
Proof.
  split; [by vm_compute|]. split; [by vm_compute|]. split; [reflexivity|].
  apply (registerService_rejection_atomic None 9 "large-service"
           "http://localhost:8888" [entry "large" 70] two_services);
    by vm_compute.
Defined.

(** ** The idle sweep *)

Lemma unload_models_length (modelName serviceName key : string) (m : VRAMManager) :
  (length (models_of key (unloadModelInternal_start modelName serviceName m).1.1)
   ≤ length (models_of key m))%nat.
Proof.
  destruct (unloadModelInternal_start_cases modelName serviceName m)
    as [(result & -> & _)|(service & i & model & Hget & Hi & _ & _ & ->)];
    [reflexivity|].
  unfold models_of. simpl.
  rewrite map_get_map_set by (simpl; by apply map_get_Some in Hget as [? _]).
  destruct (decide (serviceName = key)) as [<-|Hne]; [|reflexivity].
  rewrite Hget. simpl. rewrite length_delete by (by rewrite Hi). lia.
Qed.

(** The sweep of one service ends by itself: once the fuel covers the
    part of the array the iterator has not yet passed, more fuel changes
    nothing. *)
Lemma sweep_models_fuel (now : Z) (serviceName : string) :
  ∀ (fuel fuel' i : nat) (m : VRAMManager),
    (length (models_of serviceName m) < fuel + i)%nat → (fuel ≤ fuel')%nat →
    sweep_models fuel' now serviceName i m = sweep_models fuel now serviceName i m.
Proof.
  induction fuel as [|fuel IH]; intros fuel' i m Hlen Hle.
  - assert (Hend : map_get serviceName (services m)
                     ≫= (fun service => models service !! i) = None).
    { unfold models_of in Hlen.
      destruct (map_get serviceName (services m)) as [service|]; [|reflexivity].
      simpl in *. apply lookup_ge_None. lia. }
    destruct fuel' as [|fuel']; simpl; [reflexivity|]. by rewrite Hend.
  - destruct fuel' as [|fuel']; [lia|]. simpl.
    destruct (map_get serviceName (services m) ≫= _) as [model|]; [|reflexivity].
    destruct (inactive now m model).
    + pose proof (unload_models_length (model_name model) serviceName serviceName m)
        as Hshrink.
      destruct (unloadModelInternal_start (model_name model) serviceName m)
        as [[m1 events] pending]. simpl in Hshrink.
      rewrite (IH fuel' (S i) m1) by lia. reflexivity.
    + apply IH; lia.
Qed.

(** C4 fails on the code. With two models of one service both idle for
    longer than the timeout, one sweep unloads the first and leaves the
    second: the [splice] made for the first moves the second under the
    index the iterator has already passed. *)
Example autoUnload_skips_idle_model :
  let now := 31 * 60 * 1000 in
  Forall (fun model => inactive now two_models model = true)
         (models_of "svc" two_models)
  ∧ map model_name (models_of "svc" two_models) = ["m1"; "m2"]
  ∧ map model_name (models_of "svc" (autoUnloadInactiveModels now two_models).1.1)
    = ["m2"]
  ∧ (autoUnloadInactiveModels now two_models).2 = 1%nat.
Proof. repeat split; by repeat constructor. Qed.

(** With two models of the same name, the fresh one first, the sweep
    unloads the fresh one and keeps the idle one: [unloadModelInternal]
    looks the model up by name again. *)
Example autoUnload_unloads_fresh_namesake :
  let m :=
    run_calls fresh_manager
      [RegisterService None 0 "svc" "http://svc" [entry "m" 10; entry "m" 10];
       UpdateModelUsage 1860000 "m" "svc"] in
  let now := 31 * 60 * 1000 in
  map lastUsed (models_of "svc" m) = [1860000; 0]
  ∧ map (inactive now m) (models_of "svc" m) = [false; true]
  ∧ map lastUsed (models_of "svc" (autoUnloadInactiveModels now m).1.1) = [0].
Proof. repeat split. Qed.

(** *** What the sweep does get right

    When the models of a service have distinct names, the model the
    sweep unloads is the idle one the iterator stands on, so a model
    that is not idle is never unloaded. *)

Lemma spares_refl (now : Z) (m : VRAMManager) : spares now m m.
Proof. split; [reflexivity|]. intros serviceName Hnd. by split. Qed.

Lemma spares_trans (now : Z) (m1 m2 m3 : VRAMManager) :
  spares now m1 m2 → spares now m2 m3 → spares now m1 m3.
Proof.
  intros [Ht12 H12] [Ht23 H23]. split; [congruence|].
  intros serviceName Hnd. destruct (H12 serviceName Hnd) as [Hnd2 Hin2].
  destruct (H23 serviceName Hnd2) as [Hnd3 Hin3]. split; [exact Hnd3|].
  intros model Hin Hfresh. apply Hin3; [by apply Hin2|].
  unfold inactive in *. by rewrite Ht12.
Qed.

Lemma elem_of_delete_other (l : list ModelInfo) (i : nat) (x y : ModelInfo) :
  l !! i = Some y → x ∈ l → x ≠ y → x ∈ delete i l.
Proof.
  intros Hi Hx Hne. rewrite delete_take_drop.
  rewrite <- (take_drop_middle l i y Hi) in Hx.
  rewrite elem_of_app, elem_of_cons in Hx. rewrite elem_of_app. tauto.
Qed.

Lemma unload_idle_spares (now : Z) (key : string) (i : nat) (model : ModelInfo)
    (m : VRAMManager) :
  models_of key m !! i = Some model → inactive now m model = true →
  spares now m (unloadModelInternal_start (model_name model) key m).1.1.
Proof.
  intros Hi Hidle.
  destruct (unloadModelInternal_start_cases (model_name model) key m)
    as [(result & -> & _)|(service & j & model' & Hget & Hj & Hname & _ & ->)];
    [apply spares_refl|].
  pose proof (map_get_Some _ _ _ Hget) as [Hkey _].
  split; [reflexivity|]. intros serviceName Hnd. unfold models_of in *. simpl.
  destruct (decide (serviceName = key)) as [->|Hne].
  - rewrite map_set_same by exact Hkey. rewrite Hget in Hi, Hnd |- *.
    simpl in *. split.
    + change (NoDup (model_name <$> delete j (models service))).
      apply (sublist_NoDup _ (model_name <$> models service)); [exact Hnd|].
      apply fmap_sublist, sublist_delete.
    + intros x Hx Hfresh.
      assert (i = j) as <-.
      { apply (NoDup_lookup _ _ _ (model_name model) Hnd).
        - change ((model_name <$> models service) !! i = Some (model_name model)).
          by rewrite list_lookup_fmap, Hi.
        - change ((model_name <$> models service) !! j = Some (model_name model)).
          by rewrite list_lookup_fmap, Hj, <- Hname. }
      apply (elem_of_delete_other _ i x model Hi Hx). congruence.
  - rewrite map_set_other by (exact Hkey || exact Hne). by split.
Qed.

Lemma sweep_models_spares (now : Z) (key : string) :
  ∀ (fuel i : nat) (m : VRAMManager),
    spares now m (sweep_models fuel now key i m).1.1.
Proof.
  induction fuel as [|fuel IH]; intros i m; simpl; [apply spares_refl|].
  destruct (map_get key (services m) ≫= _) as [model|] eqn:Hi;
    [|apply spares_refl].
  assert (Hi' : models_of key m !! i = Some model).
  { unfold models_of. by destruct (map_get key (services m)). }
  destruct (inactive now m model) eqn:Hidle; [|apply IH].
  pose proof (unload_idle_spares now key i model m Hi' Hidle) as H1.
  destruct (unloadModelInternal_start (model_name model) key m)
    as [[m1 events] pending].
  pose proof (IH (S i) m1) as H2.
  destruct (sweep_models fuel now key (S i) m1) as [[m2 events'] n].
  by apply spares_trans with m1.
Qed.

Lemma sweep_steps_spare (now : Z) (names : list string) :
  ∀ acc, spares now acc.1.1 (foldl (sweep_step now) acc names).1.1.
Proof.
  induction names as [|key names IH]; intros [[m1 events] n]; simpl;
    [apply spares_refl|].
  eapply spares_trans; [|apply IH]. unfold sweep_service.
  pose proof (sweep_models_spares now key (S (length (models_of key m1))) 0 m1)
    as H.
  destruct (sweep_models _ now key 0 m1) as [[m2 events'] n'].
  exact H.
Qed.

(** The sweep never unloads a model that is not idle, provided the
    models of its service have distinct names. *)
Lemma autoUnload_spares_fresh (now : Z) (m : VRAMManager)
    (serviceName : string) (model : ModelInfo) :
  NoDup (map model_name (models_of serviceName m)) →
  model ∈ models_of serviceName m →
  inactive now m model = false →
  model ∈ models_of serviceName (autoUnloadInactiveModels now m).1.1.
Proof.
  intros Hnd Hin Hfresh.
  destruct (sweep_steps_spare now (map service_name (services m)) (m, [], 0%nat))
    as [_ H].
  by apply (H serviceName Hnd).
Qed.

(** ** Eviction of one model *)

Lemma unloadModelInternal_start_found (modelName serviceName : string)
    (m : VRAMManager) (service : ServiceInfo) (i : nat) (model : ModelInfo) :
  map_get serviceName (services m) = Some service →
  findIndex modelName (models service) = Some (i, model) →
  unloadModelInternal_start modelName serviceName m
  = (with_services
       (map_set serviceName (splice_model i (vramUsageGb model) service)
                (services m)) m,
     [WriteConfig
        (servicesConfig
           (with_services
              (map_set serviceName (splice_model i (vramUsageGb model) service)
                       (services m)) m));
      FetchUnload (url service) modelName],
     AwaitingFetch (vramUsageGb model) modelName serviceName).
Proof.
  intros Hget Hfind. unfold unloadModelInternal_start. rewrite Hget, Hfind.
  reflexivity.
Qed.

(** No call takes a service out of the registry: the names present
    before a call are still there after it, in the same places. *)
Lemma run_names_prefix (m : VRAMManager) (c : Call) :
  map service_name (services m) `prefix_of` map service_name (services (run m c)).
Proof.
  assert (Hset : ∀ key value svcs, service_name value = key →
            map service_name svcs
              `prefix_of` map service_name (map_set key value svcs)).
  { intros key value svcs Hv. rewrite map_set_names by exact Hv.
    destruct (decide (key ∈ map service_name svcs));
      [reflexivity | by apply prefix_app_r]. }
  destruct c; simpl.
  - destruct (registerService_cases gpuData now serviceName serviceUrl ms m)
      as [[_ ->]|[_ ->]]; [reflexivity|]. simpl. by apply Hset.
  - unfold unloadModel. rewrite unloadModelInternal_state.
    by rewrite (unload_keeps_names (map service_name (services m))).
  - destruct (updateModelUsage_cases now modelName serviceName m)
      as [->|(service & i & model & Hget & _ & _ & ->)]; [reflexivity|].
    simpl. apply Hset. simpl. by apply map_get_Some in Hget as [? _].
  - by rewrite (autoUnload_keeps _
                  (unload_keeps_names (map service_name (services m)))).
  - rewrite updateTotalVram_probed. reflexivity.
  - destruct file as [config|]; [|reflexivity]. simpl.
    generalize (services m). induction config as [|service config IH];
      intros svcs; simpl; [reflexivity|].
    etrans; [|apply IH]. by apply Hset.
Qed.

(** C6, as the code has it. Eviction deletes the lease record and keeps
    the service: unloading a model takes the first model of that name
    out of its service's list (no record of it, with or without a
    loaded flag, stays behind) and lowers the service's [usedVramGb] by
    its amount; the service keeps its entry, name and url even with no
    model left, every other service is untouched, and no call of any
    kind removes a service from the registry. *)
Theorem unload_deletes_lease_keeps_service (outcome : FetchOutcome)
    (modelName serviceName : string) (m : VRAMManager)
    (service : ServiceInfo) (i : nat) (model : ModelInfo) :
  map_get serviceName (services m) = Some service →
  findIndex modelName (models service) = Some (i, model) →
  (∃ service',
      map_get serviceName
        (services (unloadModel outcome modelName serviceName m).1.1)
      = Some service'
      ∧ service_name service' = serviceName
      ∧ url service' = url service
      ∧ models service' = delete i (models service)
      ∧ usedVramGb service' = usedVramGb service - vramUsageGb model)
  ∧ (∀ other, other ≠ serviceName →
       map_get other (services (unloadModel outcome modelName serviceName m).1.1)
       = map_get other (services m))
  ∧ (∀ c, map service_name (services m)
            `prefix_of` map service_name (services (run m c))).
Proof.
  intros Hget Hfind. unfold unloadModel. rewrite unloadModelInternal_state.
  rewrite (unloadModelInternal_start_found _ _ _ _ _ _ Hget Hfind). simpl.
  pose proof (map_get_Some _ _ _ Hget) as [Hname _].
  split; [|split].
  - eexists. split; [by apply map_set_same|]. by repeat split.
  - intros other Hne. by apply map_set_other.
  - apply run_names_prefix.
Qed.

Lemma unload_deletes_lease_keeps_service_witness :
  map_get "svc-a" (services two_services)
  = Some {| service_name := "svc-a"; url := "http://svc-a";
            models := [{| model_name := "model-a"; vramUsageGb := 20;
                          lastUsed := 0 |}];
            usedVramGb := 20 |}
  ∧ (∃ service',
        map_get "svc-a"
          (services (unloadModel FetchOk "model-a" "svc-a" two_services).1.1)
        = Some service'
        ∧ service_name service' = "svc-a"
        ∧ url service' = "http://svc-a"
        ∧ models service' = []
        ∧ usedVramGb service' = 20 - 20).
Proof.
  split; [reflexivity|].
  exact (proj1 (unload_deletes_lease_keeps_service FetchOk "model-a" "svc-a"
                  two_services _ 0%nat _ eq_refl eq_refl)).
Defined.

(** C6 as the specification states it fails: after the eviction of
    [model-a] the service [svc-a] is still registered but holds no
    record of the lease, loaded or not. *)
Lemma eviction_retains_record_counterexample :
  map model_name (models_of "svc-a" two_services) = ["model-a"]
  ∧ (unloadModel FetchOk "model-a" "svc-a" two_services).2
    = {| unload_success := true; freedVramGb := 20;
         unload_message := ModelUnloaded "model-a" |}
  ∧ map_get "svc-a"
      (services (unloadModel FetchOk "model-a" "svc-a" two_services).1.1)
    = Some {| service_name := "svc-a"; url := "http://svc-a"; models := [];
              usedVramGb := 0 |}.
Proof. repeat split. Qed.

(** C7. Commit before notify, and a failed notification is not fatal:
    when [unloadModelInternal] finds the model, the first thing it does
    to the outside is to write the configuration of the registry as it
    is after the eviction (the model taken out, the amount deducted);
    only then does it call the service. Whether that call succeeds,
    answers with an error status or fails altogether, the registry left
    behind is the same and the result is success with the freed amount;
    a failure adds nothing but a warning. *)
Theorem unload_commits_before_notify (outcome : FetchOutcome)
    (modelName serviceName : string) (m : VRAMManager)
    (service : ServiceInfo) (i : nat) (model : ModelInfo) :
  map_get serviceName (services m) = Some service →
  findIndex modelName (models service) = Some (i, model) →
  ∃ m' warnings,
    unloadModelInternal outcome modelName serviceName m
    = (m',
       WriteConfig (servicesConfig m') :: FetchUnload (url service) modelName
         :: warnings,
       {| unload_success := true; freedVramGb := vramUsageGb model;
          unload_message := ModelUnloaded modelName |})
    ∧ models_of serviceName m' = delete i (models service)
    ∧ sum_used (services m') = sum_used (services m) - vramUsageGb model
    ∧ m' = (unloadModelInternal FetchOk modelName serviceName m).1.1
    ∧ warnings = match outcome with
                 | FetchOk => []
                 | _ => [WarnUnload serviceName]
                 end.
Proof.
  intros Hget Hfind. unfold unloadModelInternal.
  rewrite (unloadModelInternal_start_found _ _ _ _ _ _ Hget Hfind).
  pose proof (map_get_Some _ _ _ Hget) as [Hname _].
  eexists _, _. split; [reflexivity|]. split; [|split; [|split]].
  - unfold models_of. simpl. by rewrite map_set_same.
  - simpl. unfold sum_used. rewrite sum_map_set, Hget. simpl. lia.
  - reflexivity.
  - by destruct outcome.
Qed.

Lemma unload_commits_before_notify_witness :
  ∃ m' warnings,
    unloadModelInternal FetchError "model-a" "svc-a" two_services
    = (m',
       WriteConfig (servicesConfig m') :: FetchUnload "http://svc-a" "model-a"
         :: warnings,
       {| unload_success := true; freedVramGb := 20;
          unload_message := ModelUnloaded "model-a" |})
    ∧ models_of "svc-a" m' = []
    ∧ sum_used (services m') = sum_used (services two_services) - 20
    ∧ m' = (unloadModelInternal FetchOk "model-a" "svc-a" two_services).1.1
    ∧ warnings = [WarnUnload "svc-a"].
Proof.
  exact (unload_commits_before_notify FetchError "model-a" "svc-a" two_services
           _ 0%nat _ eq_refl eq_refl).
Defined.

(** ** Releasing twice *)

Lemma delete_leaves_no_namesake (l : list ModelInfo) (i : nat) (model : ModelInfo) :
  NoDup (map model_name l) → l !! i = Some model →
  Forall (fun x => model_name x ≠ model_name model) (delete i l).
Proof.
  revert i. induction l as [|x l IH]; intros [|i] Hnd Hi; try discriminate;
    simpl in Hnd; apply NoDup_cons in Hnd as [Hx Hnd].
  - injection Hi as ->. change (delete 0%nat (model :: l)) with l.
    apply Forall_forall. intros y Hy Heq. apply Hx. rewrite <- Heq.
    by apply list_elem_of_fmap_2.
  - change (delete (S i) (x :: l)) with (x :: delete i l). constructor.
    + intros Heq. apply Hx. rewrite Heq.
      apply list_elem_of_fmap_2. by apply list_elem_of_lookup_2 with i.
    + by apply IH.
Qed.

(** C8, as the code has it. Releasing twice: when the models of a
    service have distinct names and one of them has been unloaded,
    unloading it again is answered with success [false], a freed amount
    of zero and a model-not-found message; the second call changes
    nothing, writes nothing and calls nobody. *)
Theorem second_unload_not_found (outcome outcome' : FetchOutcome)
    (modelName serviceName : string) (m : VRAMManager)
    (service : ServiceInfo) (i : nat) (model : ModelInfo) :
  map_get serviceName (services m) = Some service →
  NoDup (map model_name (models service)) →
  findIndex modelName (models service) = Some (i, model) →
  unloadModel outcome' modelName serviceName
    (unloadModel outcome modelName serviceName m).1.1
  = ((unloadModel outcome modelName serviceName m).1.1, [],
     {| unload_success := false; freedVramGb := 0;
        unload_message := ModelNotFound modelName serviceName |}).
Proof.
  intros Hget Hnd Hfind. unfold unloadModel at 2 3.
  rewrite unloadModelInternal_state.
  rewrite (unloadModelInternal_start_found _ _ _ _ _ _ Hget Hfind). simpl.
  pose proof (map_get_Some _ _ _ Hget) as [Hname _].
  apply list_find_Some in Hfind as (Hi & Hmodel & _).
  unfold unloadModel, unloadModelInternal, unloadModelInternal_start. simpl.
  rewrite map_set_same by exact Hname. simpl.
  assert (Hnone : findIndex modelName (delete i (models service)) = None).
  { apply list_find_None. rewrite <- Hmodel.
    by apply delete_leaves_no_namesake. }
  rewrite Hnone. reflexivity.
Qed.

Lemma second_unload_not_found_witness :
  unloadModel FetchOk "model-a" "svc-a"
    (unloadModel FetchOk "model-a" "svc-a" two_services).1.1
  = ((unloadModel FetchOk "model-a" "svc-a" two_services).1.1, [],
     {| unload_success := false; freedVramGb := 0;
        unload_message := ModelNotFound "model-a" "svc-a" |}).
Proof.
  apply (second_unload_not_found FetchOk FetchOk "model-a" "svc-a" two_services
           {| service_name := "svc-a"; url := "http://svc-a";
              models := [{| model_name := "model-a"; vramUsageGb := 20;
                            lastUsed := 0 |}];
              usedVramGb := 20 |}
           0%nat
           {| model_name := "model-a"; vramUsageGb := 20; lastUsed := 0 |}).
  - reflexivity.
  - simpl. apply NoDup_singleton.
  - reflexivity.
Defined.

(** C8 as the specification states it fails: the second release of
    [model-a] is not a success with nothing freed, it is a failure. *)
Lemma double_release_counterexample :
  (unloadModel FetchOk "model-a" "svc-a" two_services).2
  = {| unload_success := true; freedVramGb := 20;
       unload_message := ModelUnloaded "model-a" |}
  ∧ unload_success
      (unloadModel FetchOk "model-a" "svc-a"
         (unloadModel FetchOk "model-a" "svc-a" two_services).1.1).2
    = false.
Proof. split; reflexivity. Qed.

(** ** Persistence *)

Lemma map_set_absent (key : string) (value : ServiceInfo) (m : list ServiceInfo) :
  key ∉ map service_name m → map_set key value m = m ++ [value].
Proof.
  induction m as [|x m IH]; simpl; [reflexivity|].
  rewrite not_elem_of_cons. intros [Hne Hm].
  rewrite decide_False by congruence. by rewrite IH.
Qed.

(** Loading a list of services with distinct names that are not yet in
    the map appends them in order. *)
Lemma load_appends (now : Z) (config : list ServiceConfig) :
  ∀ svcs : list ServiceInfo,
    NoDup (map service_name svcs ++ map config_name config) →
    foldl (fun svcs service =>
             map_set (config_name service) (load_service now service) svcs)
          svcs config
    = svcs ++ map (load_service now) config.
Proof.
  induction config as [|service config IH]; intros svcs Hnd; simpl.
  - by rewrite app_nil_r.
  - simpl in Hnd. rewrite map_set_absent.
    + rewrite IH.
      * by rewrite <- app_assoc.
      * rewrite map_app. simpl. by rewrite <- app_assoc.
    + apply NoDup_app in Hnd as (_ & Hdisj & _). intros Hin.
      apply (Hdisj _ Hin). left.
Qed.




(** The names of the services stay distinct along every history, as
    the keys of a [Map] do. *)
Lemma run_keeps_NoDup (m : VRAMManager) (c : Call) :
  NoDup (map service_name (services m)) →
  NoDup (map service_name (services (run m c))).
Proof.
  intros Hnd. destruct c; simpl.
  - destruct (registerService_cases gpuData now serviceName serviceUrl ms m)
      as [[_ ->]|[_ ->]]; [exact Hnd|]. simpl. by apply map_set_NoDup.
  - unfold unloadModel. rewrite unloadModelInternal_state.
    by rewrite (unload_keeps_names (map service_name (services m))).
  - destruct (updateModelUsage_cases now modelName serviceName m)
      as [->|(service & i & model & Hget & _ & _ & ->)]; [exact Hnd|].
    simpl. apply map_set_NoDup; [|exact Hnd].
    simpl. by apply map_get_Some in Hget as [? _].
  - by rewrite (autoUnload_keeps _
                  (unload_keeps_names (map service_name (services m)))).
  - rewrite updateTotalVram_probed. exact Hnd.
  - destruct file as [config|]; [|exact Hnd]. simpl.
    revert Hnd. generalize (services m).
    induction config as [|service config IH]; intros svcs Hnd; simpl;
      [exact Hnd|].
    apply IH. by apply map_set_NoDup.
Qed.

Lemma reachable_NoDup (maxVram reserve timeout now : Z) (autoUnload : bool)
    (file : option (list ServiceConfig)) (calls : list Call) :
  NoDup (map service_name
           (services (run_calls
                        (construct maxVram reserve autoUnload timeout now file)
                        calls))).
Proof.
  assert (H0 : NoDup (map service_name
             (services (construct maxVram reserve autoUnload timeout now file)))).
  { apply (run_keeps_NoDup
             {| services := []; maxVramUsageGb := maxVram;
                vramReserveGb := reserve; enableAutoUnload := autoUnload;
                unloadTimeoutMinutes := timeout; totalVramGb := 0 |}
             (LoadServicesFromConfig now file)).
    apply NoDup_nil_2. }
  revert H0. generalize (construct maxVram reserve autoUnload timeout now file).
  unfold run_calls. induction calls as [|c calls IH]; intros m Hm; simpl;
    [exact Hm|].
  apply IH. by apply run_keeps_NoDup.
Qed.

(** ** The eviction policy of the specification *)

Section EvictionOrdering.
Import EvictionPolicy.

Lemma before_true (a b : Victim) : before a b = true → not_after a b.
Proof.
  unfold before, not_after. intros H.
  apply orb_true_iff in H as [H|H]; [left; lia|].
  apply andb_true_iff in H as [H1 H2]. right. lia.
Qed.

Lemma before_false (a b : Victim) : before a b = false → not_after b a.
Proof.
  unfold before, not_after. intros H.
  apply orb_false_iff in H as [H1 H2].
  apply andb_false_iff in H2 as [H2|H2]; lia.
Qed.

Lemma before_rank (a b : Victim) : before a b = true → rank a ≠ rank b.
Proof.
  unfold before, rank. intros H Heq. injection Heq as Ht Hl.
  apply orb_true_iff in H as [H|H]; [lia|].
  apply andb_true_iff in H as [_ H]. lia.
Qed.

Lemma not_after_trans (a b c : Victim) :
  not_after a b → not_after b c → not_after a c.
Proof. unfold not_after. lia. Qed.

Lemma place_perm (v : Victim) (vs : list Victim) : place v vs ≡ₚ v :: vs.
Proof.
  induction vs as [|w ws IH]; simpl; [reflexivity|].
  destruct (before w v); [|reflexivity].
  rewrite IH. apply Permutation_swap.
Qed.

Lemma place_sorted (v : Victim) (vs : list Victim) :
  StronglySorted not_after vs → StronglySorted not_after (place v vs).
Proof.
  induction 1 as [|w ws Hws IH Hw]; simpl.
  - repeat constructor.
  - destruct (before w v) eqn:Hwv.
    + constructor; [exact IH|].
      rewrite place_perm. constructor; [by apply before_true | exact Hw].
    + constructor; [by constructor|]. apply before_false in Hwv.
      constructor; [exact Hwv|].
      eapply Forall_impl; [exact Hw|]. intros x Hx.
      by apply not_after_trans with w.
Qed.

Lemma place_stable (r : Z * Z) (v : Victim) (vs : list Victim) :
  filter (fun x => rank x = r) (place v vs)
  = filter (fun x => rank x = r) (v :: vs).
Proof.
  induction vs as [|w ws IH]; simpl; [reflexivity|].
  destruct (before w v) eqn:Hwv; [|reflexivity].
  apply before_rank in Hwv.
  rewrite (filter_cons _ w (place v ws)), IH.
  rewrite (filter_cons _ v (w :: ws)), (filter_cons _ w ws), (filter_cons _ v ws).
  repeat case_decide; congruence.
Qed.

Lemma stable_sort_sorted (vs : list Victim) :
  StronglySorted not_after (stable_sort vs).
Proof.
  induction vs as [|v vs IH]; simpl; [constructor | by apply place_sorted].
Qed.

Lemma stable_sort_perm (vs : list Victim) : stable_sort vs ≡ₚ vs.
Proof.
  induction vs as [|v vs IH]; simpl; [reflexivity|].
  by rewrite place_perm, IH.
Qed.

Lemma stable_sort_stable (r : Z * Z) (vs : list Victim) :
  filter (fun x => rank x = r) (stable_sort vs)
  = filter (fun x => rank x = r) vs.
Proof.
  induction vs as [|v vs IH]; simpl; [reflexivity|].
  rewrite place_stable, !filter_cons, IH. reflexivity.
Qed.

(** C5. Eviction ordering of [selectVictims]: the victims are exactly
    the loaded leases of the other collaborators; they come by
    ascending priority tier (low, medium, high) and, within a tier, by
    ascending last-used time stamp; leases of equal tier and time
    stamp keep their insertion order. In particular, with a
    high-priority lease and a low-priority lease of 20 units each,
    whatever their time stamps and whichever was registered first, a
    request needing 20 units evicts the low-priority lease and only
    that one. *)
Theorem selectVictims_order (registry : list Collaborator)
    (excludeCollaborator : string) (minAmount : Z) :
  StronglySorted not_after (selectVictims registry excludeCollaborator minAmount)
  ∧ selectVictims registry excludeCollaborator minAmount
    ≡ₚ filter (fun v => eligible excludeCollaborator v) (candidates registry)
  ∧ (∀ r : Z * Z,
       filter (fun v => rank v = r)
              (selectVictims registry excludeCollaborator minAmount)
       = filter (fun v => rank v = r)
                (filter (fun v => eligible excludeCollaborator v)
                        (candidates registry)))
  ∧ (∀ (urlA urlB : string) (usedA usedB : Z),
       let leaseA := {| resource := "model-a"; amount := 20;
                        lease_lastUsed := usedA; loaded := true |} in
       let leaseB := {| resource := "model-b"; amount := 20;
                        lease_lastUsed := usedB; loaded := true |} in
       let A := {| name := "A"; callback := urlA; priority := high;
                   leases := [leaseA] |} in
       let B := {| name := "B"; callback := urlB; priority := low;
                   leases := [leaseB] |} in
       let evictB := [{| owner := "B"; owner_priority := low; victim := leaseB |}] in
       applyVictims 20 (selectVictims [A; B] "requester" 20) = evictB
       ∧ applyVictims 20 (selectVictims [B; A] "requester" 20) = evictB).
Proof.
  unfold selectVictims. split; [apply stable_sort_sorted|].
  split; [apply stable_sort_perm|].
  split; [intros r; apply stable_sort_stable|].
  intros urlA urlB usedA usedB. split; reflexivity.
Qed.

End EvictionOrdering.

(** * Further properties of the manager *)

(** ** Unloading what is not there *)

(** A call for a model the service does not hold returns before
    anything is done. *)
Lemma unload_start_missing (modelName serviceName : string) (m : VRAMManager) :
  Forall (fun model => model_name model ≠ modelName) (models_of serviceName m) →
  unloadModelInternal_start modelName serviceName m
  = (m, [],
     Returned
       {| unload_success := false; freedVramGb := 0;
          unload_message :=
            match map_get serviceName (services m) with
            | None => ServiceNotFound serviceName
            | Some _ => ModelNotFound modelName serviceName
            end |}).
Proof.
  intros Hnone. unfold unloadModelInternal_start, models_of in *.
  destruct (map_get serviceName (services m)) as [service|]; [|reflexivity].
  simpl in Hnone. unfold findIndex.
  assert (Hfind : list_find (fun model => model_name model = modelName)
                            (models service) = None) by (by apply list_find_None).
  rewrite Hfind. reflexivity.
Qed.

(** X1. Unloading a model from a service that holds no model of that
    name, in particular from a service that is not registered, is
    answered with success [false] and a freed amount of zero; the
    registry is untouched, no file is written and no service is called. *)
Theorem unload_missing_changes_nothing (outcome : FetchOutcome)
    (modelName serviceName : string) (m : VRAMManager) :
  Forall (fun model => model_name model ≠ modelName) (models_of serviceName m) →
  unloadModel outcome modelName serviceName m
  = (m, [],
     {| unload_success := false; freedVramGb := 0;
        unload_message :=
          match map_get serviceName (services m) with
          | None => ServiceNotFound serviceName
          | Some _ => ModelNotFound modelName serviceName
          end |}).
Proof.
  intros Hnone. unfold unloadModel, unloadModelInternal.
  rewrite unload_start_missing by exact Hnone. reflexivity.
Qed.

Lemma unload_missing_changes_nothing_witness :
  unloadModel FetchOk "model-a" "svc-z" two_services
  = (two_services, [],
     {| unload_success := false; freedVramGb := 0;
        unload_message := ServiceNotFound "svc-z" |}).
Proof.
  apply (unload_missing_changes_nothing FetchOk "model-a" "svc-z" two_services).
  constructor.
Defined.

(** ** [updateModelUsage] *)

Lemma map_map_set_same {B : Type} (f : ServiceInfo → B) (key : string)
    (value old : ServiceInfo) (m : list ServiceInfo) :
  map_get key m = Some old → f value = f old →
  map f (map_set key value m) = map f m.
Proof.
  intros Hget Hf. induction m as [|x m IH]; simpl in *; [discriminate|].
  destruct (decide (service_name x = key)).
  - injection Hget as ->. simpl. by rewrite Hf.
  - simpl. by rewrite IH.
Qed.

Lemma touch_keeps_entries {B : Type} (now : Z) (i : nat) (model : ModelInfo)
    (l : list ModelInfo) (f : ModelInfo → B) :
  l !! i = Some model → f (touch_model now model) = f model →
  map f (<[i := touch_model now model]> l) = map f l.
Proof.
  intros Hi Hf. change (f <$> <[i := touch_model now model]> l = f <$> l).
  rewrite list_fmap_insert, Hf. apply list_insert_id.
  by rewrite list_lookup_fmap, Hi.
Qed.

(** X2. [updateModelUsage] changes time stamps only: whatever it is
    asked, the services, their urls, their cached usage and the names
    and amounts of their models stay as they were. It answers [true]
    exactly when the service holds a model of that name, and when it
    answers [false] nothing at all has changed. *)
Theorem updateModelUsage_changes_time_only (now : Z)
    (modelName serviceName : string) (m : VRAMManager) :
  lease_view (updateModelUsage now modelName serviceName m).1 = lease_view m
  ∧ map usedVramGb (services (updateModelUsage now modelName serviceName m).1)
    = map usedVramGb (services m)
  ∧ ((updateModelUsage now modelName serviceName m).2 = true
     ↔ Exists (fun model => model_name model = modelName)
              (models_of serviceName m))
  ∧ ((updateModelUsage now modelName serviceName m).2 = false →
     (updateModelUsage now modelName serviceName m).1 = m).
Proof.
  unfold updateModelUsage, models_of, findIndex.
  destruct (map_get serviceName (services m)) as [service|] eqn:Hget; simpl.
  - destruct (list_find _ (models service)) as [[i model]|] eqn:Hfind; simpl.
    + apply list_find_Some in Hfind as (Hi & Hname & _).
      split; [|split; [|split]].
      * unfold lease_view. simpl.
        apply (map_map_set_same _ _ _ service); [exact Hget|]. simpl.
        f_equal. by apply touch_keeps_entries.
      * by apply (map_map_set_same _ _ _ service).
      * split; [intros _|reflexivity].
        apply Exists_exists. exists model. split; [|exact Hname].
        by apply list_elem_of_lookup_2 with i.
      * discriminate.
    + apply list_find_None in Hfind. repeat split; try discriminate.
      intros Hex. apply Exists_exists in Hex as (model & Hin & Hname).
      rewrite Forall_forall in Hfind.
      exfalso. by apply (Hfind model).
  - repeat split; try discriminate. intros Hex. inversion Hex.
Qed.

(** X3. A touch protects from the sweep: when the models of a service
    have distinct names and [updateModelUsage] has answered [true] at
    time [t], a sweep at any time up to [t] plus the timeout (the bound
    included) leaves a model of that name, stamped [t], in the service. *)
Theorem touched_model_survives_sweep (t now : Z) (modelName serviceName : string)
    (m : VRAMManager) :
  NoDup (map model_name (models_of serviceName m)) →
  (updateModelUsage t modelName serviceName m).2 = true →
  now - t ≤ unloadTimeoutMinutes m * (1000 * 60) →
  Exists (fun model => model_name model = modelName ∧ lastUsed model = t)
         (models_of serviceName
            (autoUnloadInactiveModels now
               (updateModelUsage t modelName serviceName m).1).1.1).
Proof.
  intros Hnd Hfound Hnow.
  destruct (updateModelUsage_cases t modelName serviceName m)
    as [Heq|(service & i & model & Hget & Hi & Hname & Heq)];
    rewrite Heq in *; [discriminate|]. simpl.
  pose proof (map_get_Some _ _ _ Hget) as [Hkey _].
  set (m1 := with_services _ m).
  assert (Hmodels : models_of serviceName m1
                    = <[i := touch_model t model]> (models service)).
  { unfold models_of, m1. simpl. by rewrite map_set_same. }
  apply Exists_exists. exists (touch_model t model). split; [|by split].
  apply autoUnload_spares_fresh.
  - rewrite Hmodels.
    rewrite (touch_keeps_entries t i model (models service) model_name)
      by (assumption || reflexivity).
    unfold models_of in Hnd. by rewrite Hget in Hnd.
  - rewrite Hmodels. apply list_elem_of_lookup. exists i.
    apply list_lookup_insert_eq. by apply lookup_lt_Some with model.
  - unfold inactive. apply bool_decide_eq_false. simpl. lia.
Qed.

Lemma touched_model_survives_sweep_witness :
  Exists (fun model => model_name model = "model-a" ∧ lastUsed model = 600000)
         (models_of "svc-a"
            (autoUnloadInactiveModels 2400000
               (updateModelUsage 600000 "model-a" "svc-a" two_services).1).1.1).
Proof.
  apply (touched_model_survives_sweep 600000 2400000 "model-a" "svc-a"
           two_services).
  - apply NoDup_singleton.
  - reflexivity.
  - by vm_compute.
Defined.

(** ** [getVRAMStatus] *)

Lemma sum_of_map {A B : Type} (f : A → B) (g : B → Z) (l : list A) :
  foldl (fun total y => total + g y) 0 (map f l)
  = foldl (fun total x => total + g (f x)) 0 l.
Proof.
  induction l as [|x l IH]; [reflexivity|].
  change (map f (x :: l)) with (f x :: map f l).
  rewrite (sum_cons g), (sum_cons (fun x => g (f x))), IH. reflexivity.
Qed.

(** X4. What [getVRAMStatus] reports: the registry is left as it is;
    the available amount is never negative, and unless it is zero the
    used amount, the available amount and the reserve add up to the
    total; the per-service figures add up to the used amount and come
    one per service in registration order; asking again gives the same
    report. *)
Theorem getVRAMStatus_report (gpuData : GpuData) (m : VRAMManager) :
  services (getVRAMStatus gpuData m).1 = services m
  ∧ 0 ≤ st_availableVramGb (getVRAMStatus gpuData m).2
  ∧ (st_availableVramGb (getVRAMStatus gpuData m).2 = 0
     ∨ st_usedVramGb (getVRAMStatus gpuData m).2
       + st_availableVramGb (getVRAMStatus gpuData m).2 + vramReserveGb m
       = st_totalVramGb (getVRAMStatus gpuData m).2)
  ∧ foldl (fun total service => total + status_usedVramGb service) 0
          (st_services (getVRAMStatus gpuData m).2)
    = st_usedVramGb (getVRAMStatus gpuData m).2
  ∧ map status_name (st_services (getVRAMStatus gpuData m).2)
    = map service_name (services m)
  ∧ (getVRAMStatus gpuData (getVRAMStatus gpuData m).1).2
    = (getVRAMStatus gpuData m).2.
Proof.
  unfold getVRAMStatus. rewrite !updateTotalVram_probed. simpl.
  split; [reflexivity|]. split; [lia|]. split; [lia|].
  split; [by rewrite sum_of_map|]. split; [by rewrite map_map | reflexivity].
Qed.

(** ** Registration *)

(** X5. An accepted registration replaces, it does not merge: when the
    request fits in what is available, [registerService] answers
    success, the service is looked up as exactly the requested models,
    each stamped with the time of the call (nothing of an earlier
    registration under that name is left), it keeps its place in the
    registry or goes to the end when it is new, every other service is
    as before, and the one file written holds the registry as it now
    is. *)
Theorem registerService_accepts_and_replaces (gpuData : GpuData) (now : Z)
    (serviceName serviceUrl : string) (ms : list ModelEntry) (m : VRAMManager) :
  sum_entries ms ≤ st_availableVramGb (getVRAMStatus gpuData m).2 →
  ∃ m',
    registerService gpuData now serviceName serviceUrl ms m
    = (m', [WriteConfig (servicesConfig m')],
       {| register_success := true;
          register_message := ServiceRegistered serviceName |})
    ∧ map_get serviceName (services m')
      = Some {| service_name := serviceName; url := serviceUrl;
                models := map (fun model =>
                                 {| model_name := entry_name model;
                                    vramUsageGb := entry_vramUsageGb model;
                                    lastUsed := now |}) ms;
                usedVramGb := sum_entries ms |}
    ∧ (∀ other, other ≠ serviceName →
         map_get other (services m') = map_get other (services m))
    ∧ map service_name (services m')
      = (if decide (serviceName ∈ map service_name (services m))
         then map service_name (services m)
         else map service_name (services m) ++ [serviceName]).
Proof.
  rewrite getVRAMStatus_available. intros Hfit.
  destruct (registerService_cases gpuData now serviceName serviceUrl ms m)
    as [[Hbig _]|[_ ->]]; [lia|].
  eexists. split; [reflexivity|]. simpl. split; [|split].
  - by apply map_set_same.
  - intros other Hne. by apply map_set_other.
  - by apply map_set_names.
Qed.

Lemma registerService_accepts_and_replaces_witness :
  sum_entries [entry "model-a2" 5; entry "model-a3" 5]
  ≤ st_availableVramGb (getVRAMStatus None two_services).2
  ∧ ∃ m',
      (registerService None 7 "svc-a" "http://svc-a:2"
         [entry "model-a2" 5; entry "model-a3" 5] two_services).1.1 = m'
      ∧ map model_name (models_of "svc-a" m') = ["model-a2"; "model-a3"]
      ∧ map service_name (services m') = ["svc-a"; "svc-b"].
Proof.
  split; [by vm_compute|].
  destruct (registerService_accepts_and_replaces None 7 "svc-a" "http://svc-a:2"
              [entry "model-a2" 5; entry "model-a3" 5] two_services)
    as (m' & Heq & Hget & _ & Hnames); [by vm_compute|].
  exists m'. split; [by rewrite Heq|]. split.
  - unfold models_of. by rewrite Hget.
  - exact Hnames.
Defined.

(** X6. A registration without models always goes through: whatever
    the state of the ledger, [registerService] with an empty list
    answers success and leaves the service registered with no model and
    a usage of zero, so that re-registering with an empty list gives up
    all the models of a service; no service is called, the others are
    untouched. *)
Theorem registerService_empty_always_accepted (gpuData : GpuData) (now : Z)
    (serviceName serviceUrl : string) (m : VRAMManager) :
  ∃ m',
    registerService gpuData now serviceName serviceUrl [] m
    = (m', [WriteConfig (servicesConfig m')],
       {| register_success := true;
          register_message := ServiceRegistered serviceName |})
    ∧ map_get serviceName (services m')
      = Some {| service_name := serviceName; url := serviceUrl; models := [];
                usedVramGb := 0 |}
    ∧ sum_used (services m')
      = sum_used (services m)
        - from_option usedVramGb 0 (map_get serviceName (services m))
    ∧ ∀ other, other ≠ serviceName →
               map_get other (services m') = map_get other (services m).
Proof.
  destruct (registerService_cases gpuData now serviceName serviceUrl [] m)
    as [[Hbig _]|[_ ->]]; [unfold sum_entries in Hbig; simpl in Hbig; lia|].
  eexists. split; [reflexivity|]. simpl. split; [|split].
  - by apply map_set_same.
  - unfold sum_used. rewrite sum_map_set. simpl. unfold sum_entries. simpl. lia.
  - intros other Hne. by apply map_set_other.
Qed.

(** X7. The admission test counts the caller's own models against it:
    once a registration of a positive amount A has been accepted,
    registering the same service with the same models again is turned
    down as soon as what was available at first, plus what the service
    held before, is less than twice A, although the registry would hold
    the same amounts as it does; the second call leaves the registry as
    the first left it. *)
Theorem registerService_again_counts_twice (gpuData : GpuData) (now now' : Z)
    (serviceName serviceUrl : string) (ms : list ModelEntry) (m : VRAMManager) :
  0 < sum_entries ms →
  sum_entries ms ≤ st_availableVramGb (getVRAMStatus gpuData m).2 →
  st_availableVramGb (getVRAMStatus gpuData m).2
  + from_option usedVramGb 0 (map_get serviceName (services m))
  < 2 * sum_entries ms →
  ∃ m2 available,
    registerService gpuData now' serviceName serviceUrl ms
      (registerService gpuData now serviceName serviceUrl ms m).1.1
    = (m2, [], {| register_success := false;
                  register_message := NotEnoughVram (sum_entries ms) available |})
    ∧ services m2
      = services (registerService gpuData now serviceName serviceUrl ms m).1.1.
Proof.
  rewrite getVRAMStatus_available. intros Hpos Hfit Htwice.
  destruct (registerService_cases gpuData now serviceName serviceUrl ms m)
    as [[Hbig _]|[_ ->]]; [lia|]. simpl.
  eexists _, _. split.
  - apply registerService_reject. simpl.
    unfold sum_used in *. rewrite sum_map_set. simpl. lia.
  - reflexivity.
Qed.

Lemma registerService_again_counts_twice_witness :
  ∃ m2 available,
    registerService None 1 "svc" "http://svc" [entry "big" 40]
      (registerService None 0 "svc" "http://svc" [entry "big" 40]
         fresh_manager).1.1
    = (m2, [], {| register_success := false;
                  register_message :=
                    NotEnoughVram (sum_entries [entry "big" 40]) available |})
    ∧ services m2
      = services (registerService None 0 "svc" "http://svc" [entry "big" 40]
                    fresh_manager).1.1.
Proof.
  apply (registerService_again_counts_twice None 0 1 "svc" "http://svc"
           [entry "big" 40] fresh_manager); by vm_compute.
Defined.

(** ** Counting what a sweep unloads *)

Lemma sweep_lookup (key : string) (i : nat) (m : VRAMManager) :
  map_get key (services m) ≫= (fun service => models service !! i)
  = models_of key m !! i.
Proof. unfold models_of. by destruct (map_get key (services m)). Qed.

(** Unloading, by its name, a model the service holds takes exactly one
    model out of the registry and does exactly two things: a write and
    a call. *)
Lemma unload_present_count (key : string) (i : nat) (model : ModelInfo)
    (m : VRAMManager) :
  models_of key m !! i = Some model →
  total_models (unloadModelInternal_start (model_name model) key m).1.1
  = total_models m - 1
  ∧ length (unloadModelInternal_start (model_name model) key m).1.2 = 2%nat.
Proof.
  intros Hi.
  destruct (unloadModelInternal_start_cases (model_name model) key m)
    as [(result & _ & _ & _ & Hnone)|(service & j & model' & Hget & Hj & _ & _ & ->)].
  - exfalso. unfold models_of in Hi. destruct Hnone as [Hnone|(s & Hget & Hnone)].
    + by rewrite Hnone in Hi.
    + rewrite Hget in Hi. simpl in Hi. rewrite Forall_lookup in Hnone.
      by apply (Hnone i model Hi).
  - split; [|reflexivity]. unfold total_models. simpl.
    rewrite (sum_map_set (fun s => Z.of_nat (length (models s)))), Hget. simpl.
    rewrite length_delete by (by rewrite Hj).
    apply lookup_lt_Some in Hj. lia.
Qed.

Lemma sweep_models_count (now : Z) (key : string) :
  ∀ (fuel i : nat) (m : VRAMManager),
    total_models (sweep_models fuel now key i m).1.1
    = total_models m - Z.of_nat (sweep_models fuel now key i m).2
    ∧ length (sweep_models fuel now key i m).1.2
      = (2 * (sweep_models fuel now key i m).2)%nat.
Proof.
  induction fuel as [|fuel IH]; intros i m; simpl; [split; [lia|reflexivity]|].
  rewrite sweep_lookup.
  destruct (models_of key m !! i) as [model|] eqn:Hi; [|split; [simpl; lia|reflexivity]].
  destruct (inactive now m model); [|apply IH].
  destruct (unload_present_count key i model m Hi) as [H1 H1'].
  destruct (unloadModelInternal_start (model_name model) key m)
    as [[m1 events] pending]. simpl in H1, H1'.
  destruct (IH (S i) m1) as [H2 H2'].
  destruct (sweep_models fuel now key (S i) m1) as [[m2 events'] n].
  simpl in *. rewrite length_app. split; lia.
Qed.

Lemma sweep_steps_count (now : Z) (names : list string) :
  ∀ acc,
    total_models (foldl (sweep_step now) acc names).1.1
    = total_models acc.1.1
      - (Z.of_nat (foldl (sweep_step now) acc names).2 - Z.of_nat acc.2)
    ∧ (length (foldl (sweep_step now) acc names).1.2
       = length acc.1.2 + 2 * ((foldl (sweep_step now) acc names).2 - acc.2))%nat
    ∧ (acc.2 ≤ (foldl (sweep_step now) acc names).2)%nat.
Proof.
  induction names as [|key names IH]; intros [[m1 events] n]; simpl.
  - split; [lia|]. split; lia.
  - unfold sweep_service.
    pose proof (sweep_models_count now key (S (length (models_of key m1))) 0 m1)
      as [H1 H1'].
    destruct (sweep_models _ now key 0 m1) as [[m2 events'] n']. simpl in H1, H1'.
    destruct (IH (m2, events ++ events', (n + n')%nat)) as (H2 & H2' & H2'').
    simpl in *. rewrite length_app in H2'. split; [lia|]. split; lia.
Qed.

Lemma autoUnload_removes (now : Z) (m : VRAMManager) :
  total_models (autoUnloadInactiveModels now m).1.1
  = total_models m - Z.of_nat (autoUnloadInactiveModels now m).2.
Proof.
  unfold autoUnloadInactiveModels.
  destruct (sweep_steps_count now (map service_name (services m)) (m, [], 0%nat))
    as (H1 & _ & _).
  simpl in *. lia.
Qed.

Lemma unload_events_app (u u' : list (list ServiceConfig * string * string)) :
  unload_events (u ++ u') = unload_events u ++ unload_events u'.
Proof. unfold unload_events. apply flat_map_app. Qed.

Lemma unload_present_events (key : string) (i : nat) (model : ModelInfo)
    (m : VRAMManager) :
  models_of key m !! i = Some model →
  ∃ u, (unloadModelInternal_start (model_name model) key m).1.2
       = unload_events [u].
Proof.
  intros Hi.
  destruct (unloadModelInternal_start_cases (model_name model) key m)
    as [(result & _ & _ & _ & Hnone)|(service & j & model' & _ & _ & _ & _ & ->)].
  - exfalso. unfold models_of in Hi. destruct Hnone as [Hnone|(s & Hget & Hnone)].
    + by rewrite Hnone in Hi.
    + rewrite Hget in Hi. simpl in Hi. rewrite Forall_lookup in Hnone.
      by apply (Hnone i model Hi).
  - by eexists (_, _, _).
Qed.

Lemma sweep_models_events (now : Z) (key : string) :
  ∀ (fuel i : nat) (m : VRAMManager),
    ∃ unloaded,
      length unloaded = (sweep_models fuel now key i m).2
      ∧ (sweep_models fuel now key i m).1.2 = unload_events unloaded.
Proof.
  induction fuel as [|fuel IH]; intros i m; simpl; [by exists []|].
  rewrite sweep_lookup.
  destruct (models_of key m !! i) as [model|] eqn:Hi; [|by exists []].
  destruct (inactive now m model); [|apply IH].
  destruct (unload_present_events key i model m Hi) as [u Hu].
  destruct (unloadModelInternal_start (model_name model) key m)
    as [[m1 events] pending]. simpl in Hu.
  destruct (IH (S i) m1) as (unloaded & Hlen & Hevents).
  destruct (sweep_models fuel now key (S i) m1) as [[m2 events'] n].
  simpl in *. exists (u :: unloaded). split; [simpl; lia|].
  rewrite Hu, Hevents. reflexivity.
Qed.

Lemma sweep_steps_events (now : Z) (names : list string) :
  ∀ acc unloaded,
    length unloaded = acc.2 → acc.1.2 = unload_events unloaded →
    ∃ unloaded',
      length unloaded' = (foldl (sweep_step now) acc names).2
      ∧ (foldl (sweep_step now) acc names).1.2 = unload_events unloaded'.
Proof.
  induction names as [|key names IH]; intros [[m1 events] n] unloaded Hlen Hev;
    simpl in *; [by exists unloaded|].
  unfold sweep_service.
  destruct (sweep_models_events now key (S (length (models_of key m1))) 0 m1)
    as (unloaded' & Hlen' & Hev').
  destruct (sweep_models _ now key 0 m1) as [[m2 events'] n']. simpl in *.
  apply (IH (m2, events ++ events', (n + n')%nat) (unloaded ++ unloaded')).
  - simpl. rewrite length_app. lia.
  - simpl. by rewrite unload_events_app, Hev, Hev'.
Qed.

(** X8. The count of a sweep is exact: [autoUnloadInactiveModels]
    takes out of the registry exactly as many models as it counts in
    [unloadedModels], and what it does to the outside is, for each of
    these models in turn, one write of the configuration file followed
    by one call of a service, and nothing else. *)
Theorem autoUnload_count_exact (now : Z) (m : VRAMManager) :
  total_models (autoUnloadInactiveModels now m).1.1
  = total_models m - Z.of_nat (autoUnloadInactiveModels now m).2
  ∧ ∃ unloaded : list (list ServiceConfig * string * string),
      length unloaded = (autoUnloadInactiveModels now m).2
      ∧ (autoUnloadInactiveModels now m).1.2
        = flat_map (fun u => [WriteConfig u.1.1; FetchUnload u.1.2 u.2]) unloaded.
Proof.
  split.
  - unfold autoUnloadInactiveModels.
    destruct (sweep_steps_count now (map service_name (services m)) (m, [], 0%nat))
      as (H1 & _ & _).
    simpl in *. lia.
  - unfold autoUnloadInactiveModels.
    by apply (sweep_steps_events now _ (m, [], 0%nat) []).
Qed.

(** ** Sweeping again and again *)

Lemma sweep_models_none (now : Z) (key : string) :
  ∀ (fuel i : nat) (m : VRAMManager),
    (sweep_models fuel now key i m).2 = 0%nat →
    (sweep_models fuel now key i m).1.1 = m.
Proof.
  induction fuel as [|fuel IH]; intros i m; simpl; [reflexivity|].
  destruct (map_get key (services m) ≫= _) as [model|]; [|reflexivity].
  destruct (inactive now m model); [|apply IH].
  destruct (unloadModelInternal_start (model_name model) key m)
    as [[m1 events] pending].
  destruct (sweep_models fuel now key (S i) m1) as [[m2 events'] n].
  discriminate.
Qed.

(** The iterator does not pass an idle model without unloading
    something. *)
Lemma sweep_models_progress (now : Z) (key : string) :
  ∀ (fuel i j : nat) (m : VRAMManager) (x : ModelInfo),
    (length (models_of key m) < fuel + i)%nat → (i ≤ j)%nat →
    models_of key m !! j = Some x → inactive now m x = true →
    (1 ≤ (sweep_models fuel now key i m).2)%nat.
Proof.
  induction fuel as [|fuel IH]; intros i j m x Hfuel Hij Hj Hidle.
  - apply lookup_lt_Some in Hj. lia.
  - simpl. rewrite sweep_lookup.
    destruct (models_of key m !! i) as [model|] eqn:Hi.
    + destruct (inactive now m model) eqn:Hmodel.
      * destruct (unloadModelInternal_start (model_name model) key m)
          as [[m1 events] pending].
        destruct (sweep_models fuel now key (S i) m1) as [[m2 events'] n].
        simpl. lia.
      * apply (IH (S i) j m x); [lia| |exact Hj|exact Hidle].
        destruct (decide (i = j)) as [->|]; [congruence | lia].
    + apply lookup_ge_None in Hi. apply lookup_lt_Some in Hj. lia.
Qed.

Lemma sweep_steps_progress (now : Z) (key : string) (x : ModelInfo) :
  ∀ (names : list string) acc,
    key ∈ names → x ∈ models_of key acc.1.1 → inactive now acc.1.1 x = true →
    (acc.2 < (foldl (sweep_step now) acc names).2)%nat.
Proof.
  induction names as [|k names IH]; intros [[m1 events] n] Hkey Hx Hidle;
    simpl in *; [by apply not_elem_of_nil in Hkey|].
  unfold sweep_service.
  pose proof (sweep_models_none now k (S (length (models_of k m1))) 0 m1) as Hnone.
  destruct (sweep_models _ now k 0 m1) as [[m2 events'] n'] eqn:Hsweep.
  simpl in Hnone.
  destruct (sweep_steps_count now names (m2, events ++ events', (n + n')%nat))
    as (_ & _ & Hmono). simpl in Hmono.
  destruct n' as [|n']; [|lia].
  rewrite Hnone in * by reflexivity.
  apply elem_of_cons in Hkey as [->|Hkey].
  - apply list_elem_of_lookup in Hx as [j Hj].
    pose proof (sweep_models_progress now k (S (length (models_of k m1))) 0 j m1 x
                  ltac:(lia) ltac:(lia) Hj Hidle) as Hone.
    rewrite Hsweep in Hone. simpl in Hone. lia.
  - pose proof (IH (m1, events ++ events', (n + 0)%nat) Hkey Hx Hidle) as H.
    simpl in H. lia.
Qed.

(** A sweep unloads at least one model whenever some service holds an
    idle one. *)
Lemma autoUnload_progress (now : Z) (m : VRAMManager) (key : string)
    (x : ModelInfo) :
  x ∈ models_of key m → inactive now m x = true →
  (1 ≤ (autoUnloadInactiveModels now m).2)%nat.
Proof.
  intros Hx Hidle. unfold autoUnloadInactiveModels.
  assert (Hkey : key ∈ map service_name (services m)).
  { apply map_get_is_Some. unfold models_of in Hx.
    destruct (map_get key (services m)); [by eexists|].
    by apply not_elem_of_nil in Hx. }
  pose proof (sweep_steps_progress now key x _ (m, [], 0%nat) Hkey Hx Hidle) as H.
  simpl in H. lia.
Qed.

(** A sweep only takes models away and keeps the timeout. *)
Lemma autoUnload_shrinks (now : Z) (m : VRAMManager) :
  unloadTimeoutMinutes (autoUnloadInactiveModels now m).1.1 = unloadTimeoutMinutes m
  ∧ ∀ key x, x ∈ models_of key (autoUnloadInactiveModels now m).1.1 →
             x ∈ models_of key m.
Proof.
  apply (autoUnload_keeps
           (fun m' => unloadTimeoutMinutes m' = unloadTimeoutMinutes m
                      ∧ ∀ key x, x ∈ models_of key m' → x ∈ models_of key m));
    [|by split].
  intros modelName serviceName m' [Ht Hsub]. split.
  - by apply (unload_keeps_timeout (unloadTimeoutMinutes m)).
  - intros key x Hx. apply Hsub. revert Hx.
    destruct (unloadModelInternal_start_cases modelName serviceName m')
      as [(result & -> & _)|(service & j & model & Hget & _ & _ & _ & ->)];
      [trivial|].
    pose proof (map_get_Some _ _ _ Hget) as [Hname _].
    unfold models_of. simpl.
    destruct (decide (key = serviceName)) as [->|Hne].
    + rewrite map_set_same by exact Hname. rewrite Hget. simpl.
      apply list_elem_of_delete_inv.
    + by rewrite map_set_other.
Qed.

Lemma total_models_nonneg (m : VRAMManager) : 0 ≤ total_models m.
Proof.
  unfold total_models. apply (sum_nonneg (fun s => Z.of_nat (length (models s)))).
  apply Forall_true. intros s. lia.
Qed.

Lemma total_models_holds (m : VRAMManager) (key : string) (x : ModelInfo) :
  x ∈ models_of key m → 1 ≤ total_models m.
Proof.
  unfold models_of, total_models.
  destruct (map_get key (services m)) as [service|] eqn:Hget;
    [|intros H; by apply not_elem_of_nil in H].
  simpl. intros Hx. apply map_get_Some in Hget as [_ Hin].
  apply list_elem_of_split in Hin as (l1 & l2 & ->).
  rewrite (sum_app (fun s => Z.of_nat (length (models s)))),
          (sum_cons (fun s => Z.of_nat (length (models s)))).
  pose proof (sum_nonneg (fun s => Z.of_nat (length (models s))) l1
                (Forall_true _ _ (fun s => Nat2Z.is_nonneg _))).
  pose proof (sum_nonneg (fun s => Z.of_nat (length (models s))) l2
                (Forall_true _ _ (fun s => Nat2Z.is_nonneg _))).
  destruct (models service); [by apply not_elem_of_nil in Hx|]. simpl length. lia.
Qed.

Lemma inactive_later (now now' : Z) (m : VRAMManager) (x : ModelInfo) :
  now ≤ now' → inactive now m x = true → inactive now' m x = true.
Proof.
  unfold inactive. rewrite !bool_decide_eq_true. lia.
Qed.

Lemma sweeps_keep_clean (now : Z) (times : list Z) :
  ∀ m : VRAMManager,
    (∀ key x, x ∈ models_of key m → inactive now m x = false) →
    ∀ key x, x ∈ models_of key (sweeps times m) →
             inactive now (sweeps times m) x = false.
Proof.
  unfold sweeps. induction times as [|t times IH]; intros m Hclean; simpl;
    [exact Hclean|].
  apply IH. intros key x Hx.
  destruct (autoUnload_shrinks t m) as [Ht Hsub].
  unfold inactive. rewrite Ht. by apply (Hclean key), Hsub.
Qed.

(** X9. The models a sweep skips are caught by the next ones: after as
    many sweeps as the registry holds models, run at any times from
    [now] on, no service holds a model that was idle at [now]. *)
Theorem sweeps_clear_idle (now : Z) (times : list Z) (m : VRAMManager)
    (key : string) :
  Forall (fun t => now ≤ t) times →
  total_models m ≤ Z.of_nat (length times) →
  Forall (fun x => inactive now (sweeps times m) x = false)
         (models_of key (sweeps times m)).
Proof.
  revert m. induction times as [|t times IH]; intros m Htimes Hlen.
  - apply Forall_forall. intros x Hx. simpl in *.
    pose proof (total_models_holds m key x Hx). lia.
  - apply Forall_cons in Htimes as [Ht Htimes].
    change (sweeps (t :: times) m)
      with (sweeps times (autoUnloadInactiveModels t m).1.1).
    pose proof (autoUnload_removes t m) as Hcount.
    destruct ((autoUnloadInactiveModels t m).2) as [|n] eqn:Hn.
    + apply Forall_forall. intros x Hx.
      apply (sweeps_keep_clean now times (autoUnloadInactiveModels t m).1.1)
        with key; [|exact Hx].
      intros key' y Hy.
      destruct (autoUnload_shrinks t m) as [Hsame Hsub].
      unfold inactive. rewrite Hsame. fold (inactive now m y).
      destruct (inactive now m y) eqn:Hidle; [|reflexivity].
      pose proof (autoUnload_progress t m key' y (Hsub _ _ Hy)
                    (inactive_later now t m y Ht Hidle)). lia.
    + apply IH; [exact Htimes|]. simpl length in Hlen. lia.
Qed.

Lemma sweeps_clear_idle_witness :
  total_models
    (run_calls two_models [UpdateModelUsage 1800000 "m2" "svc"]) ≤ 2
  ∧ Forall (fun x =>
              inactive 1860000
                (sweeps [1860000; 1920000]
                   (run_calls two_models [UpdateModelUsage 1800000 "m2" "svc"]))
                x = false)
           (models_of "svc"
              (sweeps [1860000; 1920000]
                 (run_calls two_models [UpdateModelUsage 1800000 "m2" "svc"]))).
Proof.
  split; [by vm_compute|].
  apply (sweeps_clear_idle 1860000 [1860000; 1920000]
           (run_calls two_models [UpdateModelUsage 1800000 "m2" "svc"]) "svc").
  - repeat constructor; lia.
  - by vm_compute.
Defined.

(** ** What is written is what is registered *)

Lemma last_write_from (written : option (list ServiceConfig)) (events : list Event) :
  foldl (fun written event =>
           match event with
           | WriteConfig config => Some config
           | _ => written
           end)
        written events
  = match last_write events with
    | Some config => Some config
    | None => written
    end.
Proof.
  unfold last_write. revert written.
  induction events as [|e events IH]; intros written; simpl; [reflexivity|].
  rewrite IH, (IH (match e with WriteConfig config => Some config | _ => None end)).
  destruct (foldl _ None events); [reflexivity|]. by destruct e.
Qed.

Lemma last_write_app (events events' : list Event) :
  last_write (events ++ events')
  = match last_write events' with
    | Some config => Some config
    | None => last_write events
    end.
Proof. unfold last_write at 1. rewrite foldl_app. apply last_write_from. Qed.

(** [written_through m events m']: the configuration of [m'] is the one
    last written among [events], or that of [m] when none was. *)
Lemma written_through_trans (m m1 m2 : VRAMManager) (events events' : list Event) :
  servicesConfig m1 = default (servicesConfig m) (last_write events) →
  servicesConfig m2 = default (servicesConfig m1) (last_write events') →
  servicesConfig m2 = default (servicesConfig m) (last_write (events ++ events')).
Proof.
  intros H1 H2. rewrite last_write_app, H2.
  destruct (last_write events'); [reflexivity | exact H1].
Qed.

Lemma unload_start_written (modelName serviceName : string) (m : VRAMManager) :
  servicesConfig (unloadModelInternal_start modelName serviceName m).1.1
  = default (servicesConfig m)
            (last_write (unloadModelInternal_start modelName serviceName m).1.2).
Proof.
  destruct (unloadModelInternal_start_cases modelName serviceName m)
    as [(result & -> & _)|(service & i & model & _ & _ & _ & _ & ->)];
    reflexivity.
Qed.

Lemma sweep_models_written (now : Z) (key : string) :
  ∀ (fuel i : nat) (m : VRAMManager),
    servicesConfig (sweep_models fuel now key i m).1.1
    = default (servicesConfig m) (last_write (sweep_models fuel now key i m).1.2).
Proof.
  induction fuel as [|fuel IH]; intros i m; simpl; [reflexivity|].
  destruct (map_get key (services m) ≫= _) as [model|]; [|reflexivity].
  destruct (inactive now m model); [|apply IH].
  pose proof (unload_start_written (model_name model) key m) as H1.
  destruct (unloadModelInternal_start (model_name model) key m)
    as [[m1 events] pending].
  pose proof (IH (S i) m1) as H2.
  destruct (sweep_models fuel now key (S i) m1) as [[m2 events'] n].
  simpl in *. by apply written_through_trans with m1.
Qed.

Lemma sweep_steps_written (now : Z) (names : list string) :
  ∀ (m : VRAMManager) acc,
    servicesConfig acc.1.1 = default (servicesConfig m) (last_write acc.1.2) →
    servicesConfig (foldl (sweep_step now) acc names).1.1
    = default (servicesConfig m)
              (last_write (foldl (sweep_step now) acc names).1.2).
Proof.
  induction names as [|key names IH]; intros m [[m1 events] n] Hacc; simpl;
    [exact Hacc|].
  apply IH. unfold sweep_service.
  pose proof (sweep_models_written now key (S (length (models_of key m1))) 0 m1)
    as H.
  destruct (sweep_models _ now key 0 m1) as [[m2 events'] n'].
  simpl in *. by apply written_through_trans with m1.
Qed.

Lemma updateModelUsage_config (now : Z) (modelName serviceName : string)
    (m : VRAMManager) :
  servicesConfig (updateModelUsage now modelName serviceName m).1
  = servicesConfig m.
Proof.
  destruct (updateModelUsage_cases now modelName serviceName m)
    as [->|(service & i & model & Hget & Hi & _ & ->)]; [reflexivity|].
  unfold servicesConfig. simpl.
  apply (map_map_set_same _ _ _ service); [exact Hget|].
  unfold save_service. simpl. f_equal. by apply touch_keeps_entries.
Qed.

Lemma run_events_written (m : VRAMManager) (c : Call) :
  ¬ is_load c →
  servicesConfig (run_events m c).1
  = default (servicesConfig m) (last_write (run_events m c).2).
Proof.
  intros Hc. destruct c; simpl in *.
  - destruct (registerService_cases gpuData now serviceName serviceUrl ms m)
      as [[_ ->]|[_ ->]]; reflexivity.
  - unfold unloadModel, unloadModelInternal.
    pose proof (unload_start_written modelName serviceName m) as H.
    destruct (unloadModelInternal_start modelName serviceName m)
      as [[m' events] pending].
    destruct (unloadModelInternal_finish pending outcome) as [events' result]
      eqn:Hfinish.
    simpl in *. rewrite last_write_app.
    assert (Hnone : last_write events' = None).
    { destruct pending; simpl in Hfinish; injection Hfinish as <- _;
        [reflexivity|]. by destruct outcome. }
    by rewrite Hnone.
  - apply updateModelUsage_config.
  - unfold autoUnloadInactiveModels.
    by apply (sweep_steps_written now _ m (m, [], 0%nat)).
  - rewrite updateTotalVram_probed. reflexivity.
  - contradiction.
Qed.

Lemma run_events_state (m : VRAMManager) (c : Call) :
  (run_events m c).1 = run m c.
Proof. by destruct c. Qed.

Lemma run_writing_follows (calls : list Call) :
  ∀ (m0 m : VRAMManager) (written : option (list ServiceConfig)),
    Forall (fun c => ¬ is_load c) calls →
    servicesConfig m = default (servicesConfig m0) written →
    (foldl run_writing (m, written) calls).1 = run_calls m calls
    ∧ servicesConfig (run_calls m calls)
      = default (servicesConfig m0) (foldl run_writing (m, written) calls).2.
Proof.
  induction calls as [|c calls IH]; intros m0 m written Hcalls Hsync; simpl;
    [by split|].
  apply Forall_cons in Hcalls as [Hc Hcalls].
  pose proof (run_events_written m c Hc) as Hw.
  pose proof (run_events_state m c) as Hs.
  unfold run_writing at 2 4. simpl.
  destruct (run_events m c) as [m' events]. simpl in *. subst m'.
  apply IH; [exact Hcalls|].
  destruct (last_write events); simpl in *; congruence.
Qed.

(** X10. The configuration file follows the registry: along any history
    of registrations, unloads, touches, sweeps and status reads, the
    configuration last handed to [writeFileSync] is that of the
    registry as it stands (its services, urls, models and amounts); as
    long as nothing has been written the registry still has the
    configuration it started with. *)
Theorem last_write_is_current (calls : list Call) (m : VRAMManager) :
  Forall (fun c => ¬ is_load c) calls →
  (foldl run_writing (m, None) calls).1 = run_calls m calls
  ∧ servicesConfig (run_calls m calls)
    = default (servicesConfig m) (foldl run_writing (m, None) calls).2.
Proof.
  intros Hcalls. by apply run_writing_follows.
Qed.

Lemma last_write_is_current_witness :
  servicesConfig
    (run_calls fresh_manager
       [RegisterService None 0 "svc" "http://svc" [entry "m1" 10; entry "m2" 10];
        UpdateModelUsage 1860000 "m2" "svc";
        AutoUnloadInactiveModels 1900000;
        UnloadModel FetchError "m9" "svc"])
  = default (servicesConfig fresh_manager)
      (foldl run_writing (fresh_manager, None)
         [RegisterService None 0 "svc" "http://svc" [entry "m1" 10; entry "m2" 10];
          UpdateModelUsage 1860000 "m2" "svc";
          AutoUnloadInactiveModels 1900000;
          UnloadModel FetchError "m9" "svc"]).2.
Proof.
  apply (last_write_is_current
           [RegisterService None 0 "svc" "http://svc" [entry "m1" 10; entry "m2" 10];
            UpdateModelUsage 1860000 "m2" "svc";
            AutoUnloadInactiveModels 1900000;
            UnloadModel FetchError "m9" "svc"] fresh_manager).
  repeat constructor; by intros [].
Defined.

(** ** The list of services *)

Lemma unload_keeps_service_list (l : list (string * string)) :
  kept_by_unload (fun m => getServiceList m = l).
Proof.
  intros modelName serviceName m Hm.
  destruct (unloadModelInternal_start_cases modelName serviceName m)
    as [(result & -> & _)|(service & i & model & Hget & _ & _ & _ & ->)];
    [exact Hm|].
  unfold getServiceList in *. simpl.
  by rewrite (map_map_set_same _ _ _ service).
Qed.

(** X11. A service stays listed: unloading a model, touching one, a
    sweep and a status read all leave [getServiceList] as it was, name
    by name and url by url, also for a service that has lost all its
    models. *)
Theorem getServiceList_stable (outcome : FetchOutcome) (gpuData : GpuData)
    (now : Z) (modelName serviceName : string) (m : VRAMManager) :
  getServiceList (unloadModel outcome modelName serviceName m).1.1
  = getServiceList m
  ∧ getServiceList (updateModelUsage now modelName serviceName m).1
    = getServiceList m
  ∧ getServiceList (autoUnloadInactiveModels now m).1.1 = getServiceList m
  ∧ getServiceList (getVRAMStatus gpuData m).1 = getServiceList m.
Proof.
  split; [|split; [|split]].
  - unfold unloadModel. rewrite unloadModelInternal_state.
    by apply (unload_keeps_service_list (getServiceList m)).
  - destruct (updateModelUsage_cases now modelName serviceName m)
      as [->|(service & i & model & Hget & _ & _ & ->)]; [reflexivity|].
    unfold getServiceList. simpl. by rewrite (map_map_set_same _ _ _ service).
  - by apply (autoUnload_keeps _ (unload_keeps_service_list (getServiceList m))).
  - unfold getVRAMStatus. rewrite updateTotalVram_probed. reflexivity.
Qed.

(** ** Loading a configuration file *)

Lemma save_load_service (now : Z) (service : ServiceConfig) :
  save_service (load_service now service) = service.
Proof.
  destruct service as [name url ms]. unfold save_service, load_service. simpl.
  f_equal. rewrite map_map. simpl.
  induction ms as [|[n a] ms IH]; simpl; [reflexivity | by rewrite IH].
Qed.

(** X12. Start-up loads the file as it is: when the services of the
    configuration file have distinct names, the constructor registers
    every one of them, in order, without any admission test, so that
    saving again would write the same file; the usage it then reports
    is the sum of all the amounts in the file, whatever the capacity of
    the machine. *)
Theorem construct_loads_whole_file (maxVram reserve timeout now : Z)
    (autoUnload : bool) (gpuData : GpuData) (config : list ServiceConfig) :
  NoDup (map config_name config) →
  servicesConfig (construct maxVram reserve autoUnload timeout now (Some config))
  = config
  ∧ st_usedVramGb
      (getVRAMStatus gpuData
         (construct maxVram reserve autoUnload timeout now (Some config))).2
    = foldl (fun total service => total + sum_entries (config_models service)) 0
            config.
Proof.
  intros Hnd. unfold construct, loadServicesFromConfig, servicesConfig,
    getVRAMStatus. rewrite updateTotalVram_probed. simpl.
  rewrite load_appends by exact Hnd. simpl. split.
  - rewrite map_map. rewrite <- (map_id config) at 2.
    apply map_ext. intros service. apply save_load_service.
  - unfold sum_used. by rewrite sum_of_map.
Qed.

Lemma construct_loads_whole_file_witness :
  servicesConfig
    (construct 60 4 true 30 0
       (Some [{| config_name := "svc-a"; config_url := "http://svc-a";
                 config_models := [entry "model-a" 50] |};
              {| config_name := "svc-b"; config_url := "http://svc-b";
                 config_models := [entry "model-b" 50] |}]))
  = [{| config_name := "svc-a"; config_url := "http://svc-a";
        config_models := [entry "model-a" 50] |};
     {| config_name := "svc-b"; config_url := "http://svc-b";
        config_models := [entry "model-b" 50] |}]
  ∧ st_usedVramGb
      (getVRAMStatus None
         (construct 60 4 true 30 0
            (Some [{| config_name := "svc-a"; config_url := "http://svc-a";
                      config_models := [entry "model-a" 50] |};
                   {| config_name := "svc-b"; config_url := "http://svc-b";
                      config_models := [entry "model-b" 50] |}]))).2
    = 100.
Proof.
  apply (construct_loads_whole_file 60 4 30 0 true None
           [{| config_name := "svc-a"; config_url := "http://svc-a";
               config_models := [entry "model-a" 50] |};
            {| config_name := "svc-b"; config_url := "http://svc-b";
               config_models := [entry "model-b" 50] |}]).
  apply (NoDup_cons_2 "svc-a" ["svc-b"]);
    [by intros H%list_elem_of_singleton | apply NoDup_singleton].
Defined.

(** X13. In a configuration file the last entry of a name wins: after
    [loadServicesFromConfig] a service is looked up as the last entry
    of the file under its name, with every model stamped with the time
    of loading; a name the file does not mention is looked up as
    before. *)
Theorem load_last_entry_wins (now : Z) (config : list ServiceConfig)
    (m : VRAMManager) (serviceName : string) :
  map_get serviceName (services (loadServicesFromConfig now (Some config) m))
  = match last (filter (fun service => config_name service = serviceName) config) with
    | Some service => Some (load_service now service)
    | None => map_get serviceName (services m)
    end.
Proof.
  unfold loadServicesFromConfig. simpl. generalize (services m).
  induction config as [|service config IH]; intros svcs; simpl; [reflexivity|].
  rewrite IH, filter_cons. rewrite map_get_map_set by reflexivity.
  destruct (decide (config_name service = serviceName)) as [Heq|Hne].
  - rewrite last_cons. by destruct (last (filter _ config)).
  - reflexivity.
Qed.

(** ** The server around the manager *)

(** X14. The [unload_model] tool answers [unloaded successfully] also
    when nothing was unloaded: for a service that holds no model of
    that name (or is not registered) the text of the answer is the one
    of a successful unload, only [freed_vram_gb] is zero, and the
    registry is untouched. *)
Theorem tool_unload_model_missing (outcome : FetchOutcome)
    (modelName serviceName : string) (m : VRAMManager) :
  Forall (fun model => model_name model ≠ modelName) (models_of serviceName m) →
  tool_unload_model outcome modelName serviceName m
  = (m, [], {| tool_text := ModelUnloaded modelName; tool_freed_vram_gb := 0 |}).
Proof.
  intros Hmissing. unfold tool_unload_model, unloadModel, unloadModelInternal.
  rewrite unload_start_missing by exact Hmissing. reflexivity.
Qed.

Lemma tool_unload_model_missing_witness :
  tool_unload_model FetchOk "model-z" "svc-a" two_services
  = (two_services, [],
     {| tool_text := ModelUnloaded "model-z"; tool_freed_vram_gb := 0 |}).
Proof.
  apply (tool_unload_model_missing FetchOk "model-z" "svc-a" two_services).
  repeat constructor. discriminate.
Defined.

(** X15. [POST /vram/unload] answers 200 also when nothing was
    unloaded: with both fields present and not empty, a request naming
    a model the service does not hold (or a service that is not
    registered) gets status 200 with a body whose [success] is [false]
    and whose [freedVramGb] is zero; the registry is untouched. *)
Theorem post_vram_unload_missing (outcome : FetchOutcome)
    (modelName serviceName : string) (m : VRAMManager) :
  modelName ≠ "" → serviceName ≠ "" →
  Forall (fun model => model_name model ≠ modelName) (models_of serviceName m) →
  ∃ message,
    post_vram_unload outcome (Some modelName) (Some serviceName) m
    = (m, [],
       (200, RouteResult {| unload_success := false; freedVramGb := 0;
                            unload_message := message |})).
Proof.
  intros Hmodel Hservice Hmissing. unfold post_vram_unload. simpl.
  rewrite !bool_decide_eq_false_2 by assumption. simpl.
  unfold unloadModel, unloadModelInternal.
  rewrite unload_start_missing by exact Hmissing. by eexists.
Qed.

Lemma post_vram_unload_missing_witness :
  ∃ message,
    post_vram_unload FetchOk (Some "model-z") (Some "svc-a") two_services
    = (two_services, [],
       (200, RouteResult {| unload_success := false; freedVramGb := 0;
                            unload_message := message |})).
Proof.
  apply (post_vram_unload_missing FetchOk "model-z" "svc-a" two_services);
    [discriminate | discriminate |].
  repeat constructor. discriminate.
Defined.

(** ** The capacity the manager works with *)

Lemma probed_all_null (controllers : list (option Z)) :
  controllers ≠ [] → Forall (fun gpu => gpu = None) controllers →
  probed (Some controllers) = 0.
Proof.
  intros Hne Hnull. destruct controllers as [|c cs]; [done|].
  unfold probed. generalize (c :: cs) Hnull. clear.
  intros l Hl. rewrite (foldl_add_from (default 0)).
  rewrite <- (Z.add_0_l 0) at 3. f_equal.
  induction Hl as [|gpu l -> _ IH]; [reflexivity|].
  rewrite (sum_cons (default 0)), IH. reflexivity.
Qed.

(** X16. Controllers without a memory figure leave no room: when
    [si.graphics()] lists controllers but gives [null] for the memory
    of each, the total is 0 GB (the 64 GB fallback is only for an empty
    or failed answer), and with a reserve and a usage that are not
    negative every registration of a positive amount is turned down. *)
Theorem null_vram_rejects_everything (controllers : list (option Z)) (now : Z)
    (serviceName serviceUrl : string) (ms : list ModelEntry) (m : VRAMManager) :
  controllers ≠ [] → Forall (fun gpu => gpu = None) controllers →
  0 ≤ vramReserveGb m → 0 ≤ sum_used (services m) → 0 < sum_entries ms →
  st_totalVramGb (getVRAMStatus (Some controllers) m).2 = 0
  ∧ (registerService (Some controllers) now serviceName serviceUrl ms m).2
    = {| register_success := false;
         register_message := NotEnoughVram (sum_entries ms) 0 |}.
Proof.
  intros Hne Hnull Hreserve Hused Hpos.
  pose proof (probed_all_null controllers Hne Hnull) as Hprobe. split.
  - unfold getVRAMStatus. rewrite updateTotalVram_probed. exact Hprobe.
  - rewrite registerService_reject; rewrite Hprobe.
    + simpl. do 2 f_equal. lia.
    + lia.
Qed.

Lemma null_vram_rejects_everything_witness :
  st_totalVramGb (getVRAMStatus (Some [None; None]) fresh_manager).2 = 0
  ∧ (registerService (Some [None; None]) 0 "svc" "http://svc" [entry "m" 1]
       fresh_manager).2
    = {| register_success := false;
         register_message := NotEnoughVram (sum_entries [entry "m" 1]) 0 |}.
Proof.
  apply (null_vram_rejects_everything [None; None] 0 "svc" "http://svc"
           [entry "m" 1] fresh_manager);
    [discriminate | repeat constructor | by vm_compute | by vm_compute
    | by vm_compute].
Defined.

(** ** [MAX_VRAM_USAGE_GB] *)

Lemma unload_start_ignores_max (x : Z) (modelName serviceName : string)
    (m : VRAMManager) :
  unloadModelInternal_start modelName serviceName (with_maxVramUsageGb x m)
  = (with_maxVramUsageGb x (unloadModelInternal_start modelName serviceName m).1.1,
     (unloadModelInternal_start modelName serviceName m).1.2,
     (unloadModelInternal_start modelName serviceName m).2).
Proof.
  unfold unloadModelInternal_start. simpl.
  destruct (map_get serviceName (services m)) as [service|]; [|reflexivity].
  destruct (findIndex modelName (models service)) as [[i model]|]; reflexivity.
Qed.

Lemma sweep_models_ignores_max (x now : Z) (key : string) :
  ∀ (fuel i : nat) (m : VRAMManager),
    sweep_models fuel now key i (with_maxVramUsageGb x m)
    = (with_maxVramUsageGb x (sweep_models fuel now key i m).1.1,
       (sweep_models fuel now key i m).1.2,
       (sweep_models fuel now key i m).2).
Proof.
  induction fuel as [|fuel IH]; intros i m; simpl; [reflexivity|].
  destruct (map_get key (services m) ≫= _) as [model|]; [|reflexivity].
  change (inactive now (with_maxVramUsageGb x m) model) with (inactive now m model).
  destruct (inactive now m model); [|apply IH].
  rewrite unload_start_ignores_max.
  destruct (unloadModelInternal_start (model_name model) key m)
    as [[m1 events] pending]. simpl.
  rewrite IH.
  by destruct (sweep_models fuel now key (S i) m1) as [[m2 events'] n].
Qed.

Lemma sweep_steps_ignore_max (x now : Z) (names : list string) :
  ∀ acc,
    foldl (sweep_step now) (with_maxVramUsageGb x acc.1.1, acc.1.2, acc.2) names
    = (with_maxVramUsageGb x (foldl (sweep_step now) acc names).1.1,
       (foldl (sweep_step now) acc names).1.2,
       (foldl (sweep_step now) acc names).2).
Proof.
  induction names as [|key names IH]; intros [[m1 events] n]; simpl;
    [reflexivity|].
  unfold sweep_service.
  change (models_of key (with_maxVramUsageGb x m1)) with (models_of key m1).
  rewrite sweep_models_ignores_max.
  destruct (sweep_models _ now key 0 m1) as [[m2 events'] n']. simpl.
  apply (IH (m2, events ++ events', (n + n')%nat)).
Qed.

(** X17. [MAX_VRAM_USAGE_GB] is read and never used: two managers that
    differ in it only answer every registration and every unload alike,
    report the same status, and go through every call to states that
    again differ in it only, with the same writes and calls made. *)
Theorem maxVramUsageGb_is_ignored (x : Z) (m : VRAMManager) :
  (∀ gpuData now serviceName serviceUrl ms,
     (registerService gpuData now serviceName serviceUrl ms
        (with_maxVramUsageGb x m)).2
     = (registerService gpuData now serviceName serviceUrl ms m).2)
  ∧ (∀ outcome modelName serviceName,
       (unloadModel outcome modelName serviceName (with_maxVramUsageGb x m)).2
       = (unloadModel outcome modelName serviceName m).2)
  ∧ (∀ gpuData,
       (getVRAMStatus gpuData (with_maxVramUsageGb x m)).2
       = (getVRAMStatus gpuData m).2)
  ∧ (∀ c, run_events (with_maxVramUsageGb x m) c
          = (with_maxVramUsageGb x (run_events m c).1, (run_events m c).2)).
Proof.
  assert (Hregister : ∀ gpuData now serviceName serviceUrl ms,
            registerService gpuData now serviceName serviceUrl ms
              (with_maxVramUsageGb x m)
            = (with_maxVramUsageGb x
                 (registerService gpuData now serviceName serviceUrl ms m).1.1,
               (registerService gpuData now serviceName serviceUrl ms m).1.2,
               (registerService gpuData now serviceName serviceUrl ms m).2)).
  { intros. unfold registerService, getVRAMStatus.
    rewrite !updateTotalVram_probed. simpl.
    by destruct (decide (sum_entries ms > _)). }
  assert (Hunload : ∀ outcome modelName serviceName,
            unloadModel outcome modelName serviceName (with_maxVramUsageGb x m)
            = (with_maxVramUsageGb x
                 (unloadModel outcome modelName serviceName m).1.1,
               (unloadModel outcome modelName serviceName m).1.2,
               (unloadModel outcome modelName serviceName m).2)).
  { intros. unfold unloadModel, unloadModelInternal.
    rewrite unload_start_ignores_max.
    destruct (unloadModelInternal_start modelName serviceName m)
      as [[m' events] pending]. simpl.
    by destruct (unloadModelInternal_finish pending outcome). }
  split; [intros; by rewrite Hregister|].
  split; [intros; by rewrite Hunload|].
  split.
  - intros. unfold getVRAMStatus. by rewrite !updateTotalVram_probed.
  - intros c. destruct c; simpl.
    + by rewrite Hregister.
    + by rewrite Hunload.
    + unfold updateModelUsage. simpl.
      destruct (map_get serviceName (services m)) as [service|]; [|reflexivity].
      by destruct (findIndex modelName (models service)) as [[i model]|].
    + unfold autoUnloadInactiveModels.
      change (services (with_maxVramUsageGb x m)) with (services m).
      rewrite (sweep_steps_ignore_max x now _ (m, [], 0%nat)). reflexivity.
    + unfold getVRAMStatus. by rewrite !updateTotalVram_probed.
    + by destruct file.
Qed.

(** ** Registrations that overlap *)

(** The three turns, taken without anything in between, are
    [getVRAMStatus] and [registerService] as defined above. *)
Lemma getVRAMStatus_turns (gpuData : GpuData) (m : VRAMManager) :
  getVRAMStatus gpuData m
  = (updateTotalVram gpuData m, getVRAMStatus_resume (updateTotalVram gpuData m)).
Proof. reflexivity. Qed.

Lemma registerService_turns (gpuData : GpuData) (now : Z)
    (serviceName serviceUrl : string) (ms : list ModelEntry) (m : VRAMManager) :
  registerService gpuData now serviceName serviceUrl ms m
  = registerService_resume now serviceName serviceUrl ms
      (getVRAMStatus_resume (updateTotalVram gpuData m))
      (updateTotalVram gpuData m).
Proof. reflexivity. Qed.

(** Two overlapping registrations of services not yet registered are
    both accepted as soon as each of them fits by itself, and both
    amounts are then in use. *)
Lemma overlapping_registrations_both_accepted (gpuData : GpuData) (now : Z)
    (name_a url_a name_b url_b : string) (ms_a ms_b : list ModelEntry)
    (m : VRAMManager) :
  name_a ≠ name_b →
  map_get name_a (services m) = None → map_get name_b (services m) = None →
  sum_entries ms_a ≤ st_availableVramGb (getVRAMStatus gpuData m).2 →
  sum_entries ms_b ≤ st_availableVramGb (getVRAMStatus gpuData m).2 →
  register_success
    (registerService_overlapping gpuData now (name_a, url_a, ms_a)
       (name_b, url_b, ms_b) m).1.2 = true
  ∧ register_success
      (registerService_overlapping gpuData now (name_a, url_a, ms_a)
         (name_b, url_b, ms_b) m).2 = true
  ∧ sum_used
      (services
         (registerService_overlapping gpuData now (name_a, url_a, ms_a)
            (name_b, url_b, ms_b) m).1.1)
    = sum_used (services m) + sum_entries ms_a + sum_entries ms_b.
Proof.
  rewrite getVRAMStatus_available. intros Hne Ha Hb Hfit_a Hfit_b.
  unfold registerService_overlapping, registerService_resume,
    getVRAMStatus_resume.
  rewrite !updateTotalVram_probed. simpl.
  rewrite !decide_False by lia. simpl.
  split; [reflexivity|]. split; [reflexivity|].
  unfold sum_used. rewrite !sum_map_set.
  rewrite map_get_map_set by reflexivity.
  rewrite decide_False by exact Hne. rewrite Ha, Hb. simpl. lia.
Qed.

(** C1 fails on the code. On a machine of 64 GB with a reserve of 4 GB
    and nothing registered, two registrations of 40 GB each that are
    under way at the same time both read 60 GB available before either
    has committed; both are accepted, and the ledger then commits 80 GB
    against a bound of 60 GB, which is also what [getVRAMStatus]
    reports afterwards. *)
Theorem overlapping_registrations_overcommit :
  registerService_overlapping None 0
    ("svc-a", "http://svc-a", [entry "model-a" 40])
    ("svc-b", "http://svc-b", [entry "model-b" 40]) fresh_manager
  = ({| services :=
          [{| service_name := "svc-a"; url := "http://svc-a";
              models := [{| model_name := "model-a"; vramUsageGb := 40;
                            lastUsed := 0 |}];
              usedVramGb := 40 |};
           {| service_name := "svc-b"; url := "http://svc-b";
              models := [{| model_name := "model-b"; vramUsageGb := 40;
                            lastUsed := 0 |}];
              usedVramGb := 40 |}];
        maxVramUsageGb := 60; vramReserveGb := 4; enableAutoUnload := true;
        unloadTimeoutMinutes := 30; totalVramGb := 64 |},
     {| register_success := true; register_message := ServiceRegistered "svc-a" |},
     {| register_success := true; register_message := ServiceRegistered "svc-b" |})
  ∧ committed
      (registerService_overlapping None 0
         ("svc-a", "http://svc-a", [entry "model-a" 40])
         ("svc-b", "http://svc-b", [entry "model-b" 40]) fresh_manager).1.1
    = 80
  ∧ (getVRAMStatus None
       (registerService_overlapping None 0
          ("svc-a", "http://svc-a", [entry "model-a" 40])
          ("svc-b", "http://svc-b", [entry "model-b" 40]) fresh_manager).1.1).2
    = {| st_totalVramGb := 64; st_usedVramGb := 80; st_availableVramGb := 0;
         st_services :=
           [{| status_name := "svc-a"; status_usedVramGb := 40;
               status_models := ["model-a"] |};
            {| status_name := "svc-b"; status_usedVramGb := 40;
               status_models := ["model-b"] |}] |}
  ∧ ¬ (80 ≤ 64 - vramReserveGb fresh_manager).
Proof.
  split; [reflexivity|]. split; [reflexivity|]. split; [reflexivity|].
  intros H. vm_compute in H. by apply H.
Qed.

(** ** The cached usage in binary64 *)

(** C10 fails on the code. A service registered with a model of 0.1 GB
    and a model of 0.2 GB has a cached usage of 0.30000000000000004 GB
    (5404319552844596 / 2^54), the sum as [reduce] computes it.
    Unloading the model of 0.1 GB subtracts 0.1 from the cached value
    (l.205), which leaves 0.20000000000000004 GB
    (7205759403792795 / 2^55), while the one model the service still
    holds sums to 0.2 GB (7205759403792794 / 2^55): the cached
    [usedVramGb] and the sum over the models differ. *)
Theorem usedVramGb_drifts_in_binary64 :
  map Binary64.usedVramGb (Binary64.services Binary64.fractions_registered)
  = [S754_finite false 5404319552844596 (-54)]
  ∧ (Binary64.unloadModelInternal "small" "svc" Binary64.fractions_registered).1.2
    = true
  ∧ map Binary64.usedVramGb
      (Binary64.services
         (Binary64.unloadModelInternal "small" "svc"
            Binary64.fractions_registered).1.1)
    = [S754_finite false 7205759403792795 (-55)]
  ∧ map (fun service => Binary64.sum_models (Binary64.models service))
        (Binary64.services
           (Binary64.unloadModelInternal "small" "svc"
              Binary64.fractions_registered).1.1)
    = [S754_finite false 7205759403792794 (-55)]
  ∧ map (fun service =>
           Binary64.eqb (Binary64.usedVramGb service)
                        (Binary64.sum_models (Binary64.models service)))
        (Binary64.services
           (Binary64.unloadModelInternal "small" "svc"
              Binary64.fractions_registered).1.1)
    = [false].
Proof. repeat split. Qed.
